(** * Mihomo config persistence: a shallow embedding of
      [server/utils/mihomoConfig.ts], of its two API handlers
      ([mihomo-config.get.ts], [mihomo-config.put.ts]), of the bounded
      remote fetch handler and of the YAML editor of [pages/rules.vue],
      with the properties of the specification.

    JavaScript strings are sequences of UTF-16 code units; files hold bytes.
    Storage is a finite map from paths to files; every storage primitive can
    fail with an error code chosen by the environment. *)

From Stdlib Require Import ZArith List Lia Bool String Ascii QArith.
From stdpp Require Import base gmap list pretty.

Local Open Scope Z_scope.
Local Open Scope list_scope.

(* ===================================================================== *)
(** ** JavaScript strings and UTF-8 *)
(* ===================================================================== *)

(** A code unit is an integer in [0, 65535]; a byte an integer in [0, 255]. *)
Abbreviation code_unit := Z (only parsing).
Abbreviation byte := Z (only parsing).
Abbreviation jsstring := (list Z) (only parsing).

(** String literals of the source (all of them ASCII). *)
Fixpoint lit (s : string) : jsstring :=
  match s with
  | EmptyString => []
  | String c r => Z.of_nat (nat_of_ascii c) :: lit r
  end.

Definition is_high_surrogate (u : code_unit) : bool :=
  (0xD800 <=? u) && (u <=? 0xDBFF).
Definition is_low_surrogate (u : code_unit) : bool :=
  (0xDC00 <=? u) && (u <=? 0xDFFF).

(** The code point of a surrogate pair. *)
Definition pair_code_point (hi lo : code_unit) : Z :=
  0x10000 + (hi - 0xD800) * 1024 + (lo - 0xDC00).

(** The bytes of U+FFFD, which replaces an unpaired surrogate. *)
Definition replacement_bytes : list byte := [0xEF; 0xBF; 0xBD].
Definition replacement_unit : code_unit := 0xFFFD.

Definition encode1 (u : Z) : list byte := [u].
Definition encode2 (u : Z) : list byte :=
  [0xC0 + u / 64; 0x80 + u mod 64].
Definition encode3 (u : Z) : list byte :=
  [0xE0 + u / 4096; 0x80 + (u / 64) mod 64; 0x80 + u mod 64].
Definition encode4 (c : Z) : list byte :=
  [0xF0 + c / 262144; 0x80 + (c / 4096) mod 64;
   0x80 + (c / 64) mod 64; 0x80 + c mod 64].

(** What [writeFile(path, content, 'utf8')] and [new TextEncoder().encode]
    store for a string: UTF-8, an unpaired surrogate becoming U+FFFD. *)
Fixpoint utf8_encode (s : jsstring) : list byte :=
  match s with
  | [] => []
  | u :: rest =>
      if u <? 0x80 then encode1 u ++ utf8_encode rest
      else if u <? 0x800 then encode2 u ++ utf8_encode rest
      else if is_high_surrogate u then
        match rest with
        | lo :: rest' =>
            if is_low_surrogate lo
            then encode4 (pair_code_point u lo) ++ utf8_encode rest'
            else replacement_bytes ++ utf8_encode rest
        | [] => replacement_bytes
        end
      else if is_low_surrogate u then replacement_bytes ++ utf8_encode rest
      else encode3 u ++ utf8_encode rest
  end.

(** [Buffer.byteLength(content, 'utf8')]: the number of bytes the encoding
    takes, counted without building it. *)
Fixpoint byteLength (s : jsstring) : Z :=
  match s with
  | [] => 0
  | u :: rest =>
      if u <? 0x80 then 1 + byteLength rest
      else if u <? 0x800 then 2 + byteLength rest
      else if is_high_surrogate u then
        match rest with
        | lo :: rest' =>
            if is_low_surrogate lo then 4 + byteLength rest'
            else 3 + byteLength rest
        | [] => 3
        end
      else 3 + byteLength rest
  end.

Definition is_continuation (b : byte) : bool := (0x80 <=? b) && (b <=? 0xBF).
Definition in_range (lo hi b : byte) : bool := (lo <=? b) && (b <=? hi).

(** The units of a decoded code point. *)
Definition units_of_code_point (c : Z) : jsstring :=
  if c <? 0x10000 then [c]
  else [0xD800 + (c - 0x10000) / 1024; 0xDC00 + (c - 0x10000) mod 1024].

(** What [readFile(path, 'utf8')] returns for the bytes of a file: UTF-8
    decoding in which every maximal ill-formed prefix becomes one U+FFFD and
    the offending byte is read again. No byte-order mark is removed. *)
Fixpoint utf8_decode (bs : list byte) : jsstring :=
  match bs with
  | [] => []
  | b0 :: r0 =>
      if in_range 0 0x7F b0 then b0 :: utf8_decode r0
      else if in_range 0xC2 0xDF b0 then
        match r0 with
        | b1 :: r1 =>
            if is_continuation b1
            then ((b0 - 0xC0) * 64 + (b1 - 0x80)) :: utf8_decode r1
            else replacement_unit :: utf8_decode r0
        | [] => [replacement_unit]
        end
      else if in_range 0xE0 0xEF b0 then
        match r0 with
        | b1 :: r1 =>
            if in_range (if b0 =? 0xE0 then 0xA0 else 0x80)
                        (if b0 =? 0xED then 0x9F else 0xBF) b1
            then
              match r1 with
              | b2 :: r2 =>
                  if is_continuation b2
                  then ((b0 - 0xE0) * 4096 + (b1 - 0x80) * 64 + (b2 - 0x80))
                         :: utf8_decode r2
                  else replacement_unit :: utf8_decode r1
              | [] => [replacement_unit]
              end
            else replacement_unit :: utf8_decode r0
        | [] => [replacement_unit]
        end
      else if in_range 0xF0 0xF4 b0 then
        match r0 with
        | b1 :: r1 =>
            if in_range (if b0 =? 0xF0 then 0x90 else 0x80)
                        (if b0 =? 0xF4 then 0x8F else 0xBF) b1
            then
              match r1 with
              | b2 :: r2 =>
                  if is_continuation b2
                  then
                    match r2 with
                    | b3 :: r3 =>
                        if is_continuation b3
                        then units_of_code_point
                               ((b0 - 0xF0) * 262144 + (b1 - 0x80) * 4096
                                + (b2 - 0x80) * 64 + (b3 - 0x80))
                               ++ utf8_decode r3
                        else replacement_unit :: utf8_decode r2
                    | [] => [replacement_unit]
                    end
                  else replacement_unit :: utf8_decode r1
              | [] => [replacement_unit]
              end
            else replacement_unit :: utf8_decode r0
        | [] => [replacement_unit]
        end
      else replacement_unit :: utf8_decode r0
  end.

(** A string is well formed when every code unit is in range and every
    surrogate is half of a high-low pair. *)
Fixpoint well_formed (s : jsstring) : bool :=
  match s with
  | [] => true
  | u :: rest =>
      if negb (in_range 0 0xFFFF u) then false
      else if is_high_surrogate u then
        match rest with
        | lo :: rest' => is_low_surrogate lo && well_formed rest'
        | [] => false
        end
      else negb (is_low_surrogate u) && well_formed rest
  end.

(* ===================================================================== *)
(** ** JavaScript values *)
(* ===================================================================== *)

(** Numbers: the values [Number(...)] can return. *)
Inductive number :=
| NaN
| Infinity (positive : bool)
| Finite (q : Q).

(** [x > n] for an integer [n]; false for [NaN]. *)
Definition number_gt (x : number) (n : Z) : bool :=
  match x with
  | NaN => false
  | Infinity positive => positive
  | Finite q => negb (Qle_bool q (inject_Z n))
  end.

#[warnings="-register-all"]
Inductive JsValue :=
| JsUndefined
| JsNull
| JsBoolean (b : bool)
| JsNumber (n : number)
| JsString (s : jsstring)
| JsObject (props : list (jsstring * JsValue)).

(** [typeof v]. *)
Definition typeof (v : JsValue) : jsstring :=
  match v with
  | JsUndefined => lit "undefined"
  | JsNull => lit "object"
  | JsBoolean _ => lit "boolean"
  | JsNumber _ => lit "number"
  | JsString _ => lit "string"
  | JsObject _ => lit "object"
  end.

(** [!v]. *)
Definition falsy (v : JsValue) : bool :=
  match v with
  | JsUndefined | JsNull => true
  | JsBoolean b => negb b
  | JsNumber NaN => true
  | JsNumber (Infinity _) => false
  | JsNumber (Finite q) => Qeq_bool q 0
  | JsString s => bool_decide (s = [])
  | JsObject _ => false
  end.

Fixpoint lookup_prop (k : jsstring) (props : list (jsstring * JsValue))
  : JsValue :=
  match props with
  | [] => JsUndefined
  | (k', v) :: rest => if bool_decide (k = k') then v else lookup_prop k rest
  end.

(** [v.k] for a [v] other than [null] and [undefined] and a key [k] that no
    built-in prototype defines (the source reads [content] and [code]). *)
Definition get_prop (v : JsValue) (k : jsstring) : JsValue :=
  match v with
  | JsObject props => lookup_prop k props
  | _ => JsUndefined
  end.

(** [v?.k]. *)
Definition get_prop_opt (v : JsValue) (k : jsstring) : JsValue :=
  match v with
  | JsUndefined | JsNull => JsUndefined
  | _ => get_prop v k
  end.

(** [v === 'literal']. *)
Definition strict_eq_lit (v : JsValue) (l : string) : bool :=
  match v with
  | JsString s => bool_decide (s = lit l)
  | _ => false
  end.

(** [s.startsWith(prefix)]. *)
Fixpoint startsWith (s p : jsstring) : bool :=
  match p, s with
  | [], _ => true
  | c :: p', d :: s' => (c =? d) && startsWith s' p'
  | _ :: _, [] => false
  end.

(** The decimal text of an integer in a template literal. *)
Definition number_text (n : Z) : jsstring := lit (pretty n).

(* ===================================================================== *)
(** ** Errors *)
(* ===================================================================== *)

Definition MIHOMO_CONFIG_FILE_PATH : jsstring := lit "/opt/mihomo/config.yaml".
Definition MAX_MIHOMO_CONFIG_SIZE_BYTES : Z := 2 * 1024 * 1024.

Inductive MihomoConfigErrorCode :=
| NOT_FOUND
| PERMISSION_DENIED
| INVALID_CONTENT
| CONTENT_TOO_LARGE
| IO_ERROR.

Record MihomoConfigError := mkMihomoConfigError {
  code : MihomoConfigErrorCode;
  statusCode : Z;
  message : jsstring
}.

Inductive Action := Read | Write.

Definition action_text (a : Action) : jsstring :=
  match a with
  | Read => lit "read"
  | Write => lit "write"
  end.

Definition mapNodeError (error : JsValue) (action : Action)
  : MihomoConfigError :=
  let err_code := get_prop_opt error (lit "code") in
  if strict_eq_lit err_code "ENOENT" then
    mkMihomoConfigError NOT_FOUND 404 (lit "Mihomo config file not found")
  else if strict_eq_lit err_code "EACCES" || strict_eq_lit err_code "EPERM"
  then
    mkMihomoConfigError PERMISSION_DENIED 403
      (lit "Permission denied while trying to " ++ action_text action
       ++ lit " Mihomo config file")
  else
    mkMihomoConfigError IO_ERROR 500
      (lit "Failed to " ++ action_text action ++ lit " Mihomo config file").

(** What [createError] builds in the handlers. *)
Record H3Error := mkH3Error {
  h3_statusCode : Z;
  h3_statusMessage : jsstring;
  h3_data : option MihomoConfigErrorCode
}.

(* ===================================================================== *)
(** ** Storage *)
(* ===================================================================== *)

Record File := mkFile {
  data : list byte;
  mtimeMs : Z
}.

(** The storage operations a call starts, in the order it starts them. *)
Inductive FsOp :=
| OpReadFile (path : jsstring)
| OpStat (path : jsstring)
| OpWriteFile (path : jsstring) (bytes : list byte)
| OpRename (src dst : jsstring)
| OpUnlink (path : jsstring).

Record World := mkWorld {
  files : gmap (list Z) File;
  ops : list FsOp
}.

Definition started (op : FsOp) (w : World) : World :=
  mkWorld (files w) (ops w ++ [op]).
Definition with_files (fs : gmap (list Z) File) (w : World) : World :=
  mkWorld fs (ops w).

(** The rejection value of a failed storage primitive: an error object whose
    [code] names the failure. *)
Definition errno (c : jsstring) : JsValue :=
  JsObject [(lit "code", JsString c)].

(** How the environment makes [writeFile] fail: with a code, and with the
    file either not created ([None]) or left holding a prefix ([Some k]). *)
Inductive WriteFault :=
| WriteGoesThrough
| WriteFails (c : jsstring) (left_on_disk : option nat).

(** Computations over storage that return or throw. *)
Definition M (E A : Type) : Type := World -> (E + A) * World.

Definition ret {E A} (x : A) : M E A := fun w => (inr x, w).
Definition throw {E A} (e : E) : M E A := fun w => (inl e, w).
Definition bind {E A B} (m : M E A) (k : A -> M E B) : M E B :=
  fun w =>
    match m w with
    | (inr x, w') => k x w'
    | (inl e, w') => (inl e, w')
    end.

Notation "'await' x <- m ;; k" := (bind m (fun x => k))
  (at level 10, x name, m at level 99, k at level 200).

(** [try { m } catch (error) { handler error }]. *)
Definition try_catch {E E' A} (m : M E A) (handler : E -> M E' A) : M E' A :=
  fun w =>
    match m w with
    | (inr x, w') => (inr x, w')
    | (inl e, w') => handler e w'
    end.

(** [try { m } finally { cleanup }]: the outcome of [m] stands unless
    [cleanup] throws. *)
Definition try_finally {E A} (m : M E A) (cleanup : M E unit) : M E A :=
  fun w =>
    match m w with
    | (r, w') =>
        match cleanup w' with
        | (inr _, w'') => (r, w'')
        | (inl e, w'') => (inl e, w'')
        end
    end.

(** [m.catch(() => {})]. *)
Definition catch_noop {E E' A} (m : M E A) : M E' unit :=
  fun w => (inr tt, snd (m w)).

(** [Promise.all([a, b])]: both are started; when both reject, the one the
    environment settles first wins. *)
Definition promise_all2 {E A B} (second_settles_first : bool)
    (a : M E A) (b : M E B) : M E (A * B) :=
  fun w =>
    match a w with
    | (ra, w1) =>
        match b w1 with
        | (rb, w2) =>
            match ra, rb with
            | inr x, inr y => (inr (x, y), w2)
            | inl e, inr _ => (inl e, w2)
            | inr _, inl e => (inl e, w2)
            | inl e1, inl e2 =>
                (inl (if second_settles_first then e2 else e1), w2)
            end
        end
    end.

Definition readFile (fault : option jsstring) (path : jsstring)
  : M JsValue jsstring :=
  fun w =>
    let w := started (OpReadFile path) w in
    match fault with
    | Some c => (inl (errno c), w)
    | None =>
        match files w !! path with
        | Some f => (inr (utf8_decode (data f)), w)
        | None => (inl (errno (lit "ENOENT")), w)
        end
    end.

Definition stat (fault : option jsstring) (path : jsstring) : M JsValue Z :=
  fun w =>
    let w := started (OpStat path) w in
    match fault with
    | Some c => (inl (errno c), w)
    | None =>
        match files w !! path with
        | Some f => (inr (mtimeMs f), w)
        | None => (inl (errno (lit "ENOENT")), w)
        end
    end.

(** [writeFile(path, content, 'utf8')]; [stamp] is the time the storage
    clock shows when the file is written. *)
Definition writeFile (fault : WriteFault) (stamp : Z)
    (path : jsstring) (content : jsstring) : M JsValue unit :=
  fun w =>
    let bytes := utf8_encode content in
    let w := started (OpWriteFile path bytes) w in
    match fault with
    | WriteGoesThrough =>
        (inr tt, with_files (<[path := mkFile bytes stamp]> (files w)) w)
    | WriteFails c None => (inl (errno c), w)
    | WriteFails c (Some k) =>
        (inl (errno c),
         with_files (<[path := mkFile (take k bytes) stamp]> (files w)) w)
    end.

(** [rename(src, dst)] either moves the file or changes nothing. *)
Definition rename (fault : option jsstring) (src dst : jsstring)
  : M JsValue unit :=
  fun w =>
    let w := started (OpRename src dst) w in
    match fault with
    | Some c => (inl (errno c), w)
    | None =>
        match files w !! src with
        | Some f =>
            (inr tt, with_files (<[dst := f]> (delete src (files w))) w)
        | None => (inl (errno (lit "ENOENT")), w)
        end
    end.

Definition unlink (fault : option jsstring) (path : jsstring)
  : M JsValue unit :=
  fun w =>
    let w := started (OpUnlink path) w in
    match fault with
    | Some c => (inl (errno c), w)
    | None =>
        match files w !! path with
        | Some _ => (inr tt, with_files (delete path (files w)) w)
        | None => (inl (errno (lit "ENOENT")), w)
        end
    end.

(* ===================================================================== *)
(** ** [readMihomoConfigFile] and [writeMihomoConfigFile] *)
(* ===================================================================== *)

(** What the environment decides during one [readMihomoConfigFile]. *)
Record ReadEnv := mkReadEnv {
  readFile_fault : option jsstring;
  read_stat_fault : option jsstring;
  stat_settles_first : bool
}.

(** What the environment decides during one [writeMihomoConfigFile]. *)
Record WriteEnv := mkWriteEnv {
  pid : Z;                           (* process.pid *)
  now : Z;                           (* Date.now() *)
  stamp : Z;                         (* the storage clock at the write *)
  writeFile_fault : WriteFault;
  rename_fault : option jsstring;
  stat_fault : option jsstring;
  unlink_fault : option jsstring
}.

Record ReadResult := mkReadResult {
  content : jsstring;
  read_mtimeMs : Z
}.

Record WriteResult := mkWriteResult {
  write_mtimeMs : Z
}.

Definition readMihomoConfigFile (env : ReadEnv) (filePath : jsstring)
  : M MihomoConfigError ReadResult :=
  try_catch
    (await r <- promise_all2 (stat_settles_first env)
            (readFile (readFile_fault env) filePath)
            (stat (read_stat_fault env) filePath) ;;
     ret (mkReadResult (fst r) (snd r)))
    (fun error => throw (mapNodeError error Read)).

(** The code with which [readFile] or [stat] of a path rejects, if it
    does: the failure the environment makes it report, or [ENOENT] when it
    makes none and no file is at the path. *)
Definition reported (fault : option jsstring) (file : option File)
  : option jsstring :=
  match fault with
  | Some c => Some c
  | None =>
      match file with
      | Some _ => None
      | None => Some (lit "ENOENT")
      end
  end.

(** The code of the rejection that settles first during a read, if one of
    the two primitives rejects. *)
Definition first_rejection (env : ReadEnv) (file : option File)
  : option jsstring :=
  match reported (readFile_fault env) file,
        reported (read_stat_fault env) file with
  | Some c1, Some c2 => Some (if stat_settles_first env then c2 else c1)
  | Some c1, None => Some c1
  | None, Some c2 => Some c2
  | None, None => None
  end.

Definition tempPath_of (env : WriteEnv) (filePath : jsstring) : jsstring :=
  filePath ++ lit "." ++ number_text (pid env) ++ lit "."
  ++ number_text (now env) ++ lit ".tmp".

Definition writeMihomoConfigFile (env : WriteEnv) (content : JsValue)
    (filePath : jsstring) : M MihomoConfigError WriteResult :=
  if negb (bool_decide (typeof content = lit "string")) then
    throw (mkMihomoConfigError INVALID_CONTENT 400
             (lit "`content` must be a string"))
  else
    match content with
    | JsString content =>
        if byteLength content >? MAX_MIHOMO_CONFIG_SIZE_BYTES then
          throw (mkMihomoConfigError CONTENT_TOO_LARGE 413
                   (lit "Config content exceeds "
                    ++ number_text MAX_MIHOMO_CONFIG_SIZE_BYTES
                    ++ lit " bytes"))
        else
          let tempPath := tempPath_of env filePath in
          try_finally
            (try_catch
               (await _ <- writeFile (writeFile_fault env) (stamp env)
                             tempPath content ;;
                await _ <- rename (rename_fault env) tempPath filePath ;;
                await fileStat <- stat (stat_fault env) filePath ;;
                ret (mkWriteResult fileStat))
               (fun error => throw (mapNodeError error Write)))
            (catch_noop (unlink (unlink_fault env) tempPath))
    | _ =>
        (* not reached: [typeof content] is ["string"] here *)
        throw (mkMihomoConfigError INVALID_CONTENT 400
                 (lit "`content` must be a string"))
    end.

(* ===================================================================== *)
(** ** The API handlers of the config file *)
(* ===================================================================== *)

(** What a handler's [catch (error)] can receive. *)
Inductive Thrown :=
| ThrownConfigError (e : MihomoConfigError)   (* instanceof MihomoConfigError *)
| ThrownOther.

(** A [MihomoConfigError] thrown by the callee reaches the handler's
    [catch] as it is. *)
Definition propagate {A} (m : M MihomoConfigError A) : M Thrown A :=
  try_catch m (fun e => throw (ThrownConfigError e)).

Definition to_h3 (action : string) (error : Thrown) : H3Error :=
  match error with
  | ThrownConfigError e =>
      mkH3Error (statusCode e) (message e) (Some (code e))
  | ThrownOther =>
      mkH3Error 500
        (lit "Unexpected error while " ++ lit action
         ++ lit " Mihomo config file") None
  end.

(** [mihomo-config.get.ts]. *)
Definition mihomo_config_get (env : ReadEnv) : M H3Error ReadResult :=
  try_catch
    (propagate (readMihomoConfigFile env MIHOMO_CONFIG_FILE_PATH))
    (fun error => throw (to_h3 "reading" error)).

(** How [readBody(event)] settles. *)
Inductive BodyOutcome :=
| BodyRejects
| BodyResolves (body : JsValue).

Definition readBody (request : BodyOutcome) : M Thrown JsValue :=
  match request with
  | BodyRejects => throw ThrownOther
  | BodyResolves body => ret body
  end.

Record PutResponse := mkPutResponse {
  ok : bool;
  put_mtimeMs : Z
}.

(** [mihomo-config.put.ts]. *)
Definition mihomo_config_put (env : WriteEnv) (request : BodyOutcome)
  : M H3Error PutResponse :=
  try_catch
    (await body <- readBody request ;;
     if falsy body
        || negb (bool_decide
                   (typeof (get_prop body (lit "content")) = lit "string"))
     then
       throw (ThrownConfigError
                (mkMihomoConfigError INVALID_CONTENT 400
                   (lit "`content` must be a string")))
     else
       await result <- propagate
                         (writeMihomoConfigFile env
                            (get_prop body (lit "content"))
                            MIHOMO_CONFIG_FILE_PATH) ;;
       ret (mkPutResponse true (write_mtimeMs result)))
    (fun error => throw (to_h3 "writing" error)).

(* ===================================================================== *)
(** ** The bounded remote fetch handler *)
(* ===================================================================== *)

Inductive TextOutcome :=
| TextRejects (message : jsstring)
| TextResolves (text : jsstring).

Record Response := mkResponse {
  resp_ok : bool;
  resp_status : Z;
  resp_content_length : option jsstring;   (* headers.get('content-length') *)
  resp_text : TextOutcome                  (* response.text() *)
}.

Inductive FetchOutcome :=
| FetchRejects (message : jsstring)
| FetchResolves (response : Response).

(** What the handler's [catch (error)] can receive. *)
Inductive FetchThrown :=
| ThrownH3 (e : H3Error)
| ThrownError (message : jsstring).

(** The status [createError] gives an error: the one asked for when it is
    from 100 to 999, and 500 otherwise. *)
Definition sanitizeStatusCode (status : Z) : Z :=
  if (100 <=? status) && (status <=? 999) then status else 500.

Definition too_large_error : H3Error :=
  mkH3Error 413
    (lit "Remote file exceeds " ++ number_text MAX_MIHOMO_CONFIG_SIZE_BYTES
     ++ lit " bytes limit") None.

Section RemoteFetch.

(** [Number(s)]: the numeric value of a string. *)
Variable Number : jsstring -> number.

(** The body of the handler's [try]. *)
Definition fetch_try (outcome : FetchOutcome) : FetchThrown + jsstring :=
  match outcome with
  | FetchRejects message => inl (ThrownError message)
  | FetchResolves response =>
      if negb (resp_ok response) then
        inl (ThrownH3
               (mkH3Error (sanitizeStatusCode (resp_status response))
                  (lit "Remote server responded with "
                   ++ number_text (resp_status response)) None))
      else
        let contentLength := resp_content_length response in
        if match contentLength with
           | Some cl =>
               negb (bool_decide (cl = []))
               && number_gt (Number cl) MAX_MIHOMO_CONFIG_SIZE_BYTES
           | None => false
           end
        then inl (ThrownH3 too_large_error)
        else
          match resp_text response with
          | TextRejects message => inl (ThrownError message)
          | TextResolves content =>
              if Z.of_nat (length (utf8_encode content))
                 >? MAX_MIHOMO_CONFIG_SIZE_BYTES
              then inl (ThrownH3 too_large_error)
              else inr content
          end
  end.

(** The handler's [catch]. *)
Definition fetch_catch (error : FetchThrown) : H3Error :=
  let bad_gateway message :=
    mkH3Error 502 (lit "Failed to fetch from remote URL: " ++ message) None
  in
  match error with
  | ThrownH3 e =>
      if negb (h3_statusCode e =? 0) then e
      else bad_gateway (h3_statusMessage e)
  | ThrownError message => bad_gateway message
  end.

(** The handler: [url] is [getQuery(event).url], [fetch] the network. *)
Definition fetch_remote (fetch : jsstring -> FetchOutcome) (url : JsValue)
  : H3Error + jsstring :=
  if falsy url || negb (bool_decide (typeof url = lit "string")) then
    inl (mkH3Error 400 (lit "Missing required query parameter: url") None)
  else
    match url with
    | JsString url =>
        if negb (startsWith url (lit "http://"))
           && negb (startsWith url (lit "https://"))
        then
          inl (mkH3Error 400
                 (lit "URL must start with http:// or https://") None)
        else
          match fetch_try (fetch url) with
          | inr content => inr content
          | inl error => inl (fetch_catch error)
          end
    | _ =>
        inl (mkH3Error 400 (lit "Missing required query parameter: url")
               None)
    end.

End RemoteFetch.

(** A stand-in for [Number] in examples: it agrees with [Number] on the
    empty string and on strings of decimal digits, and answers [NaN] on every
    other string, where [Number] may answer a number. *)
Fixpoint digits_value (acc : Z) (s : jsstring) : option Z :=
  match s with
  | [] => Some acc
  | d :: rest =>
      if in_range 48 57 d then digits_value (acc * 10 + (d - 48)) rest
      else None
  end.

Definition Number_decimal (s : jsstring) : number :=
  match s with
  | [] => Finite 0
  | _ =>
      match digits_value 0 s with
      | Some n => Finite (inject_Z n)
      | None => NaN
      end
  end.

(* ===================================================================== *)
(** ** Environments and worlds used in statements *)
(* ===================================================================== *)

(** A world holding [fs] in which no operation has been started yet. *)
Definition fresh (fs : gmap (list Z) File) : World := mkWorld fs [].

(** An environment in which no storage primitive is made to fail. *)
Definition quiet_write (pid now stamp : Z) : WriteEnv :=
  mkWriteEnv pid now stamp WriteGoesThrough None None None.
Definition quiet_read : ReadEnv := mkReadEnv None None false.

(** The same environment with another outcome for the cleanup. *)
Definition with_unlink_fault (f : option jsstring) (env : WriteEnv)
  : WriteEnv :=
  mkWriteEnv (pid env) (now env) (stamp env) (writeFile_fault env)
    (rename_fault env) (stat_fault env) f.

(** A string of [n] copies of one code unit. *)
Definition repeated (u : Z) (n : Z) : jsstring := replicate (Z.to_nat n) u.

Definition invalid_content_error : MihomoConfigError :=
  mkMihomoConfigError INVALID_CONTENT 400 (lit "`content` must be a string").
Definition content_too_large_error : MihomoConfigError :=
  mkMihomoConfigError CONTENT_TOO_LARGE 413
    (lit "Config content exceeds 2097152 bytes").

(* ===================================================================== *)
(** ** Sample data *)
(* ===================================================================== *)

Definition newline : jsstring := [10].
Definition old_config : jsstring := lit "port: 7890" ++ newline.
Definition new_config : jsstring := lit "port: 7891" ++ newline.

(** Storage holding the old configuration at the default path. *)
Definition sample_storage (mtime : Z) : gmap (list Z) File :=
  {[ MIHOMO_CONFIG_FILE_PATH := mkFile (utf8_encode old_config) mtime ]}.

(** A write during which the [stat] that follows the rename fails. *)
Definition stat_failing_env : WriteEnv :=
  mkWriteEnv 4242 1700000000000 1700000000000
    WriteGoesThrough None (Some (lit "EIO")) None.

(** The string ["\uD800"]: one unpaired high surrogate. *)
Definition lone_surrogate : jsstring := [0xD800].

(** A request body [{ content: v }]. *)
Definition body_with_content (v : JsValue) : JsValue :=
  JsObject [(lit "content", v)].

(* ===================================================================== *)
(** ** The status each error code carries, and well-formed text *)
(* ===================================================================== *)

(** The status every construction site of the source pairs a code with. *)
Definition status_of (c : MihomoConfigErrorCode) : Z :=
  match c with
  | NOT_FOUND => 404
  | PERMISSION_DENIED => 403
  | INVALID_CONTENT => 400
  | CONTENT_TOO_LARGE => 413
  | IO_ERROR => 500
  end.

(** The string with every unpaired surrogate replaced by U+FFFD (what
    [s.toWellFormed()] is in JavaScript). *)
Fixpoint toWellFormed (s : jsstring) : jsstring :=
  match s with
  | [] => []
  | u :: rest =>
      if is_high_surrogate u then
        match rest with
        | lo :: rest' =>
            if is_low_surrogate lo then u :: lo :: toWellFormed rest'
            else replacement_unit :: toWellFormed rest
        | [] => [replacement_unit]
        end
      else if is_low_surrogate u then replacement_unit :: toWellFormed rest
      else u :: toWellFormed rest
  end.

(* ===================================================================== *)
(** ** The YAML editor of the rules page ([pages/rules.vue]) *)
(* ===================================================================== *)

(** [a || b]. *)
Definition js_or (a b : JsValue) : JsValue := if falsy a then b else a.

(** [parseRequestErrorMessage]: the first truthy one of
    [err?.data?.statusMessage], [err?.statusMessage], [err?.message] and
    the fallback. *)
Definition parseRequestErrorMessage (error : JsValue) (fallback : jsstring)
  : JsValue :=
  let err := error in
  js_or
    (js_or
       (js_or (get_prop_opt (get_prop_opt err (lit "data"))
                 (lit "statusMessage"))
              (get_prop_opt err (lit "statusMessage")))
       (get_prop_opt err (lit "message")))
    (JsString fallback).

Inductive YamlStatusType := StatusSuccess | StatusWarning | StatusError.

Record YamlStatus := mkYamlStatus {
  status_type : YamlStatusType;
  status_message : JsValue
}.

(** The refs of the editor. *)
Record Editor := mkEditor {
  yamlContent : jsstring;
  originalYamlContent : jsstring;
  yamlMtimeMs : option Z;
  yamlLoading : bool;
  yamlSaving : bool;
  yamlStatus : option YamlStatus
}.

Definition set_loading (b : bool) (e : Editor) : Editor :=
  mkEditor (yamlContent e) (originalYamlContent e) (yamlMtimeMs e) b
    (yamlSaving e) (yamlStatus e).
Definition set_saving (b : bool) (e : Editor) : Editor :=
  mkEditor (yamlContent e) (originalYamlContent e) (yamlMtimeMs e)
    (yamlLoading e) b (yamlStatus e).
Definition set_status (st : option YamlStatus) (e : Editor) : Editor :=
  mkEditor (yamlContent e) (originalYamlContent e) (yamlMtimeMs e)
    (yamlLoading e) (yamlSaving e) st.

Definition isYamlDirty (e : Editor) : bool :=
  negb (bool_decide (yamlContent e = originalYamlContent e)).

Definition yamlBytes (e : Editor) : Z :=
  Z.of_nat (length (utf8_encode (yamlContent e))).

(** The requests the page sends, in the order it sends them. *)
Inductive Request :=
| GetMihomoConfig                        (* $fetch('/api/mihomo-config') *)
| PutMihomoConfig (content : jsstring)   (* the same URL, method PUT *)
| PutConfigsReload.                      (* request.put('configs', ...) *)

Section RulesPage.

(** [t(key)]: the message of a key in the current locale. *)
Variable t : string -> jsstring.

(** [loadMihomoConfigFile]; [response] is how the GET request settles. *)
Definition loadMihomoConfigFile (response : JsValue + ReadResult)
    (e : Editor) : Editor * list Request :=
  let e := set_status None (set_loading true e) in
  let e :=
    match response with
    | inr result =>
        mkEditor (content result) (content result)
          (Some (read_mtimeMs result)) (yamlLoading e) (yamlSaving e)
          (yamlStatus e)
    | inl error =>
        set_status
          (Some (mkYamlStatus StatusError
                   (parseRequestErrorMessage error
                      (t "yamlEditorLoadFailed")))) e
    end in
  (set_loading false e, [GetMihomoConfig]).

(** [saveMihomoConfigAndReload]; [put] is how the PUT request of a content
    settles, [reload] how the reload request does. *)
Definition saveMihomoConfigAndReload
    (put : jsstring -> JsValue + PutResponse) (reload : JsValue + unit)
    (e : Editor) : Editor * list Request :=
  if negb (isYamlDirty e) then (e, [])
  else
    let e := set_status None (set_saving true e) in
    match put (yamlContent e) with
    | inl error =>
        (set_saving false
           (set_status
              (Some (mkYamlStatus StatusError
                       (parseRequestErrorMessage error
                          (t "yamlEditorSaveFailed")))) e),
         [PutMihomoConfig (yamlContent e)])
    | inr saveResult =>
        let e :=
          mkEditor (yamlContent e) (yamlContent e)
            (Some (put_mtimeMs saveResult)) (yamlLoading e) (yamlSaving e)
            (yamlStatus e) in
        let e :=
          match reload with
          | inr _ =>
              set_status
                (Some (mkYamlStatus StatusSuccess
                         (JsString (t "yamlEditorSaveAndReloadSuccess")))) e
          | inl error =>
              set_status
                (Some (mkYamlStatus StatusWarning
                         (parseRequestErrorMessage error
                            (t "yamlEditorSavedButReloadFailed")))) e
          end in
        (set_saving false e,
         [PutMihomoConfig (yamlContent e); PutConfigsReload])
    end.


End RulesPage.

(** The status and the code of a handler's answer when it is an error. *)
Definition h3_statusCode_of {A} (answer : H3Error + A) : option Z :=
  match answer with
  | inl e => Some (h3_statusCode e)
  | inr _ => None
  end.
Definition h3_code_of {A} (answer : H3Error + A)
  : option MihomoConfigErrorCode :=
  match answer with
  | inl e => h3_data e
  | inr _ => None
  end.

(** The editor when the page is set up. *)
Definition initial_editor : Editor := mkEditor [] [] None false false None.

(** An English locale, for examples. *)
Definition t_en (key : string) : jsstring := lit key.

(* ===================================================================== *)
(** * Properties *)
(* ===================================================================== *)

(** ** UTF-8 *)

Ltac bool_to_prop H :=
  repeat first
    [ rewrite andb_true_iff in H
    | rewrite andb_false_iff in H
    | rewrite negb_true_iff in H
    | rewrite negb_false_iff in H
    | rewrite Z.leb_le in H
    | rewrite Z.leb_gt in H
    | rewrite Z.ltb_lt in H
    | rewrite Z.ltb_ge in H
    | rewrite Z.eqb_eq in H
    | rewrite Z.eqb_neq in H ].

(** A range test settled by the arithmetic context. *)
Ltac range_false :=
  unfold in_range, is_continuation in *;
  repeat match goal with
         | H : _ && _ = true |- _ => apply andb_true_iff in H; destruct H
         | H : (_ <=? _) = true |- _ => apply Z.leb_le in H
         end;
  apply andb_false_iff;
  first [ left; apply Z.leb_gt; lia | right; apply Z.leb_gt; lia ].

Ltac range_true :=
  unfold in_range, is_continuation, is_low_surrogate, is_high_surrogate;
  apply andb_true_iff; split; apply Z.leb_le; lia.

(** The decoder on a well-formed sequence of one to four bytes. *)
Lemma utf8_decode_1 (b0 : Z) (bs : list Z) :
  in_range 0 0x7F b0 = true ->
  utf8_decode (b0 :: bs) = b0 :: utf8_decode bs.
Proof. intros H. cbn [utf8_decode]. now rewrite H. Qed.

Lemma utf8_decode_2 (b0 b1 : Z) (bs : list Z) :
  in_range 0xC2 0xDF b0 = true ->
  is_continuation b1 = true ->
  utf8_decode (b0 :: b1 :: bs)
  = ((b0 - 0xC0) * 64 + (b1 - 0x80)) :: utf8_decode bs.
Proof.
  intros H0 H1. cbn [utf8_decode]. rewrite H0, H1.
  assert (in_range 0 0x7F b0 = false) as -> by range_false.
  reflexivity.
Qed.

Lemma utf8_decode_3 (b0 b1 b2 : Z) (bs : list Z) :
  in_range 0xE0 0xEF b0 = true ->
  in_range (if b0 =? 0xE0 then 0xA0 else 0x80)
           (if b0 =? 0xED then 0x9F else 0xBF) b1 = true ->
  is_continuation b2 = true ->
  utf8_decode (b0 :: b1 :: b2 :: bs)
  = ((b0 - 0xE0) * 4096 + (b1 - 0x80) * 64 + (b2 - 0x80)) :: utf8_decode bs.
Proof.
  intros H0 H1 H2. cbn [utf8_decode]. rewrite H0, H1, H2.
  assert (in_range 0 0x7F b0 = false) as -> by range_false.
  assert (in_range 0xC2 0xDF b0 = false) as -> by range_false.
  reflexivity.
Qed.

Lemma utf8_decode_4 (b0 b1 b2 b3 : Z) (bs : list Z) :
  in_range 0xF0 0xF4 b0 = true ->
  in_range (if b0 =? 0xF0 then 0x90 else 0x80)
           (if b0 =? 0xF4 then 0x8F else 0xBF) b1 = true ->
  is_continuation b2 = true ->
  is_continuation b3 = true ->
  utf8_decode (b0 :: b1 :: b2 :: b3 :: bs)
  = units_of_code_point
      ((b0 - 0xF0) * 262144 + (b1 - 0x80) * 4096 + (b2 - 0x80) * 64
       + (b3 - 0x80))
    ++ utf8_decode bs.
Proof.
  intros H0 H1 H2 H3. cbn [utf8_decode]. rewrite H0, H1, H2, H3.
  assert (in_range 0 0x7F b0 = false) as -> by range_false.
  assert (in_range 0xC2 0xDF b0 = false) as -> by range_false.
  assert (in_range 0xE0 0xEF b0 = false) as -> by range_false.
  reflexivity.
Qed.

(** Base-64 digits of a value: [u = 64 * (u / 64) + u mod 64]. *)
Ltac digits u q r :=
  let Hq := fresh "D" in
  let Hr := fresh "B" in
  pose proof (Z.div_mod u 64 ltac:(lia)) as Hq;
  pose proof (Z.mod_pos_bound u 64 ltac:(lia)) as Hr;
  set (q := u / 64) in *; set (r := u mod 64) in *;
  clearbody q r.

Lemma decode_encode1 (u : Z) (bs : list Z) :
  0 <= u < 0x80 ->
  utf8_decode (encode1 u ++ bs) = u :: utf8_decode bs.
Proof.
  intros Hu. unfold encode1. cbn [app].
  apply utf8_decode_1. range_true.
Qed.

Lemma decode_encode2 (u : Z) (bs : list Z) :
  0x80 <= u < 0x800 ->
  utf8_decode (encode2 u ++ bs) = u :: utf8_decode bs.
Proof.
  intros Hu. unfold encode2. digits u q r. cbn [app].
  rewrite utf8_decode_2 by range_true. f_equal. lia.
Qed.

Lemma decode_encode3 (u : Z) (bs : list Z) :
  0x800 <= u <= 0xFFFF ->
  is_high_surrogate u = false ->
  is_low_surrogate u = false ->
  utf8_decode (encode3 u ++ bs) = u :: utf8_decode bs.
Proof.
  intros Hu Hh Hl. unfold encode3, is_high_surrogate, is_low_surrogate in *.
  bool_to_prop Hh. bool_to_prop Hl.
  replace (u / 4096) with (u / 64 / 64)
    by (rewrite Z.div_div by lia; reflexivity).
  digits u q r. digits q q' r'. cbn [app].
  rewrite utf8_decode_3.
  - f_equal. lia.
  - range_true.
  - destruct (Z.eqb_spec (224 + q') 224), (Z.eqb_spec (224 + q') 237);
      range_true.
  - range_true.
Qed.

Lemma decode_encode4 (c : Z) (bs : list Z) :
  0x10000 <= c <= 0x10FFFF ->
  utf8_decode (encode4 c ++ bs) = units_of_code_point c ++ utf8_decode bs.
Proof.
  intros Hc. unfold encode4.
  replace (c / 262144) with (c / 64 / 64 / 64)
    by (rewrite !Z.div_div by lia; reflexivity).
  replace (c / 4096) with (c / 64 / 64)
    by (rewrite Z.div_div by lia; reflexivity).
  digits c q1 r1. digits q1 q2 r2. digits q2 q3 r3. cbn [app].
  rewrite utf8_decode_4.
  - do 2 f_equal. lia.
  - range_true.
  - destruct (Z.eqb_spec (240 + q3) 240), (Z.eqb_spec (240 + q3) 244);
      range_true.
  - range_true.
  - range_true.
Qed.

Lemma units_of_pair (hi lo : Z) :
  is_high_surrogate hi = true ->
  is_low_surrogate lo = true ->
  units_of_code_point (pair_code_point hi lo) = [hi; lo]
  /\ 0x10000 <= pair_code_point hi lo <= 0x10FFFF.
Proof.
  unfold is_high_surrogate, is_low_surrogate, units_of_code_point,
    pair_code_point.
  intros Hh Hl. bool_to_prop Hh. bool_to_prop Hl.
  split; [| lia].
  destruct (Z.ltb_spec (65536 + (hi - 55296) * 1024 + (lo - 56320)) 65536);
    [lia |].
  f_equal; [| f_equal]; Z.div_mod_to_equations; lia.
Qed.

(** Induction over a string that may step over one unit or over a pair. *)
Lemma list_pair_ind (P : list Z -> Prop) :
  P [] ->
  (forall u, P [u]) ->
  (forall u v s, P s -> P (v :: s) -> P (u :: v :: s)) ->
  forall s, P s.
Proof.
  intros Hnil Hone Hstep s.
  enough (P s /\ forall u, P (u :: s)) by tauto.
  induction s as [| v s [IHs IHcons]]; split; auto.
Qed.

Lemma high_not_small (u : Z) :
  is_high_surrogate u = true -> (u <? 0x80) = false /\ (u <? 0x800) = false.
Proof.
  unfold is_high_surrogate. intros H. bool_to_prop H.
  split; apply Z.ltb_ge; lia.
Qed.

Lemma roundtrip_unit (u : Z) (rest : list Z) :
  in_range 0 0xFFFF u = true ->
  is_high_surrogate u = false ->
  is_low_surrogate u = false ->
  utf8_decode (utf8_encode rest) = rest ->
  utf8_decode (utf8_encode (u :: rest)) = u :: rest.
Proof.
  intros Hr Hh Hl IH. cbn [utf8_encode]. rewrite Hh, Hl.
  unfold in_range in Hr. bool_to_prop Hr.
  destruct (Z.ltb_spec u 0x80); [| destruct (Z.ltb_spec u 0x800)].
  - rewrite decode_encode1 by lia. congruence.
  - rewrite decode_encode2 by lia. congruence.
  - rewrite decode_encode3 by (assumption || lia). congruence.
Qed.

Lemma roundtrip_pair (hi lo : Z) (rest : list Z) :
  is_high_surrogate hi = true ->
  is_low_surrogate lo = true ->
  utf8_decode (utf8_encode rest) = rest ->
  utf8_decode (utf8_encode (hi :: lo :: rest)) = hi :: lo :: rest.
Proof.
  intros Hh Hl IH. cbn [utf8_encode].
  destruct (high_not_small hi Hh) as [-> ->]. rewrite Hh, Hl.
  destruct (units_of_pair hi lo Hh Hl) as [Hunits Hrange].
  rewrite decode_encode4 by exact Hrange.
  rewrite Hunits, IH. reflexivity.
Qed.

(** Reading back the bytes written for a well-formed string gives the
    string. *)
Lemma utf8_roundtrip (s : list Z) :
  well_formed s = true -> utf8_decode (utf8_encode s) = s.
Proof.
  induction s as [| u | u v s IHs IHvs] using list_pair_ind; intros Hwf.
  - reflexivity.
  - cbn [well_formed] in Hwf.
    destruct (in_range 0 0xFFFF u) eqn:Er; [| discriminate].
    destruct (is_high_surrogate u) eqn:Eh; [discriminate |].
    cbn [negb] in Hwf. rewrite andb_true_r in Hwf.
    apply negb_true_iff in Hwf.
    now apply roundtrip_unit.
  - cbn [well_formed] in Hwf. fold well_formed in Hwf.
    destruct (in_range 0 0xFFFF u) eqn:Er; [| discriminate].
    cbn [negb] in Hwf.
    destruct (is_high_surrogate u) eqn:Eh.
    + apply andb_true_iff in Hwf as [Hl Hs].
      apply roundtrip_pair; auto.
    + apply andb_true_iff in Hwf as [Hl Hs].
      apply negb_true_iff in Hl.
      apply roundtrip_unit; auto.
Qed.

Lemma byteLength_utf8_encode (s : list Z) :
  byteLength s = Z.of_nat (length (utf8_encode s)).
Proof.
  induction s as [| u | u v s IHs IHvs] using list_pair_ind.
  - reflexivity.
  - cbn [byteLength utf8_encode].
    repeat match goal with
           | |- context [if ?b then _ else _] => destruct b
           end; reflexivity.
  - revert IHvs. cbn [byteLength utf8_encode].
    repeat match goal with
           | |- context [if ?b then _ else _] => destruct b
           end;
      intros IHvs; rewrite length_app, Nat2Z.inj_add;
      first [rewrite <- IHvs | rewrite <- IHs]; reflexivity.
Qed.

Lemma byteLength_nonneg (s : list Z) : 0 <= byteLength s.
Proof. rewrite byteLength_utf8_encode. lia. Qed.

Lemma byteLength_ascii (s : list Z) :
  Forall (fun u => u < 0x80) s -> byteLength s = Z.of_nat (length s).
Proof.
  induction 1 as [| u s Hu _ IH]; [reflexivity |].
  cbn [byteLength length]. rewrite (proj2 (Z.ltb_lt u 0x80) Hu), IH. lia.
Qed.

(** What is stored for a string of code units is a sequence of bytes. *)
Lemma utf8_encode_bytes (s : list Z) :
  Forall (fun u => 0 <= u <= 0xFFFF) s ->
  Forall (fun b => 0 <= b <= 0xFF) (utf8_encode s).
Proof.
  assert (forall u, 0 <= u < 0x80 ->
                    Forall (fun b => 0 <= b <= 0xFF) (encode1 u)) as H1
    by (intros u Hu; repeat constructor; lia).
  assert (forall u, 0 <= u < 0x800 ->
                    Forall (fun b => 0 <= b <= 0xFF) (encode2 u)) as H2
    by (intros u Hu; unfold encode2; repeat constructor;
        Z.div_mod_to_equations; lia).
  assert (forall u, 0 <= u <= 0xFFFF ->
                    Forall (fun b => 0 <= b <= 0xFF) (encode3 u)) as H3
    by (intros u Hu; unfold encode3; repeat constructor;
        Z.div_mod_to_equations; lia).
  assert (forall c, 0x10000 <= c <= 0x10FFFF ->
                    Forall (fun b => 0 <= b <= 0xFF) (encode4 c)) as H4
    by (intros c Hc; unfold encode4; repeat constructor;
        Z.div_mod_to_equations; lia).
  assert (Forall (fun b => 0 <= b <= 0xFF) replacement_bytes) as Hrep
    by (repeat constructor; lia).
  induction s as [| u | u v s IHs IHvs] using list_pair_ind; intros Hs.
  - constructor.
  - apply Forall_inv in Hs. cbn beta in Hs. cbn [utf8_encode].
    destruct (Z.ltb_spec u 0x80); [| destruct (Z.ltb_spec u 0x800)];
      [ apply Forall_app; split; [apply H1; lia | constructor]
      | apply Forall_app; split; [apply H2; lia | constructor]
      | ].
    destruct (is_high_surrogate u); [exact Hrep |].
    destruct (is_low_surrogate u); apply Forall_app; split;
      auto; constructor.
  - pose proof (Forall_inv Hs) as Hu. cbn beta in Hu.
    apply Forall_inv_tail in Hs.
    specialize (IHvs Hs). specialize (IHs (Forall_inv_tail Hs)).
    revert IHvs. cbn [utf8_encode]. intros IHvs.
    destruct (Z.ltb_spec u 0x80); [| destruct (Z.ltb_spec u 0x800)];
      [ apply Forall_app; split; [apply H1; lia | exact IHvs]
      | apply Forall_app; split; [apply H2; lia | exact IHvs]
      | ].
    destruct (is_high_surrogate u) eqn:Eh.
    + destruct (is_low_surrogate v) eqn:El.
      * apply Forall_app; split; [| exact IHs].
        apply H4. now apply units_of_pair.
      * apply Forall_app; split; [exact Hrep | exact IHvs].
    + destruct (is_low_surrogate u); apply Forall_app; split; auto.
Qed.

Example utf8_encode_ascii :
  utf8_encode (lit "port: 7891") = lit "port: 7891".
Proof. reflexivity. Qed.

Example utf8_roundtrip_sample :
  utf8_decode (utf8_encode [0x41; 0xE9; 0x4E2D; 0xD83D; 0xDE00; 0xFEFF])
  = [0x41; 0xE9; 0x4E2D; 0xD83D; 0xDE00; 0xFEFF].
Proof. vm_compute. reflexivity. Qed.

Example utf8_encode_sample :
  utf8_encode [0x41; 0xE9; 0x4E2D; 0xD83D; 0xDE00]
  = [0x41; 0xC3; 0xA9; 0xE4; 0xB8; 0xAD; 0xF0; 0x9F; 0x98; 0x80].
Proof. vm_compute. reflexivity. Qed.

Example byteLength_sample :
  byteLength [0x41; 0xE9; 0x4E2D; 0xD83D; 0xDE00; 0xDC00] = 13.
Proof. reflexivity. Qed.

Example tempPath_sample :
  tempPath_of (quiet_write 4242 1700000000000 0) MIHOMO_CONFIG_FILE_PATH
  = lit "/opt/mihomo/config.yaml.4242.1700000000000.tmp".
Proof. vm_compute. reflexivity. Qed.

(** ** Validation in [writeMihomoConfigFile] *)

Lemma typeof_string_iff (v : JsValue) :
  typeof v = lit "string" <-> exists s, v = JsString s.
Proof.
  split.
  - destruct v; cbn; intros H; try discriminate H. eauto.
  - intros [s ->]. reflexivity.
Qed.

Lemma classic_string (v : JsValue) :
  (exists s, v = JsString s) \/ (forall s, v <> JsString s).
Proof. destruct v; eauto; right; discriminate. Qed.

Lemma write_not_string (env : WriteEnv) (v : JsValue) (p : list Z) :
  (forall s, v <> JsString s) ->
  writeMihomoConfigFile env v p = throw invalid_content_error.
Proof.
  intros Hv. unfold writeMihomoConfigFile.
  rewrite bool_decide_eq_false_2; [reflexivity |].
  intros [s ->]%typeof_string_iff. now apply (Hv s).
Qed.

Lemma write_string (env : WriteEnv) (s : list Z) (p : list Z) :
  writeMihomoConfigFile env (JsString s) p
  = if byteLength s >? MAX_MIHOMO_CONFIG_SIZE_BYTES
    then throw content_too_large_error
    else
      try_finally
        (try_catch
           (await _ <- writeFile (writeFile_fault env) (stamp env)
                         (tempPath_of env p) s ;;
            await _ <- rename (rename_fault env) (tempPath_of env p) p ;;
            await fileStat <- stat (stat_fault env) p ;;
            ret (mkWriteResult fileStat))
           (fun error => throw (mapNodeError error Write)))
        (catch_noop (unlink (unlink_fault env) (tempPath_of env p))).
Proof.
  unfold writeMihomoConfigFile.
  rewrite bool_decide_eq_true_2 by reflexivity. reflexivity.
Qed.

Lemma tempPath_differs (env : WriteEnv) (p : list Z) : tempPath_of env p <> p.
Proof.
  unfold tempPath_of. intros H. apply (f_equal length) in H.
  rewrite !length_app in H. cbn [lit length] in H. lia.
Qed.

Lemma byteLength_repeated_ascii (u n : Z) :
  u < 0x80 -> 0 <= n -> byteLength (repeated u n) = n.
Proof.
  intros Hu Hn. unfold repeated. rewrite byteLength_ascii.
  - rewrite length_replicate. lia.
  - apply Forall_replicate. exact Hu.
Qed.

(** Unfold one call down to the storage primitives. *)
Ltac run_storage :=
  unfold propagate, try_finally, try_catch, catch_noop, promise_all2, bind,
    ret, throw, writeFile, rename, stat, unlink, readFile, started,
    with_files;
  cbn [files ops fst snd readFile_fault read_stat_fault stat_settles_first
       writeFile_fault rename_fault stat_fault unlink_fault stamp].

Lemma mapNodeError_never_validation (error : JsValue) (action : Action) :
  code (mapNodeError error action) <> CONTENT_TOO_LARGE
  /\ code (mapNodeError error action) <> INVALID_CONTENT.
Proof.
  unfold mapNodeError.
  repeat match goal with
         | |- context [if ?b then _ else _] => destruct b
         end; cbn; split; discriminate.
Qed.

(** When the content passes validation, the call starts with the write of
    the whole content to the temporary path and fails only with a
    classified storage failure. *)
Lemma write_reaches_storage (env : WriteEnv) (s p : list Z) (w : World) :
  byteLength s <= MAX_MIHOMO_CONFIG_SIZE_BYTES ->
  (exists rest,
      ops (snd (writeMihomoConfigFile env (JsString s) p w))
      = ops w ++ OpWriteFile (tempPath_of env p) (utf8_encode s) :: rest)
  /\ (forall e,
         fst (writeMihomoConfigFile env (JsString s) p w) = inl e ->
         exists error, e = mapNodeError error Write).
Proof.
  intros Hle. rewrite write_string.
  destruct (Z.gtb_spec (byteLength s) MAX_MIHOMO_CONFIG_SIZE_BYTES) as [|_];
    [lia |].
  destruct env as [pid0 now0 stamp0 fw fr fs fu].
  set (temp := tempPath_of _ p). cbn [writeFile_fault rename_fault stat_fault
    unlink_fault stamp].
  run_storage.
  destruct fw as [| c [k |]]; cbn [fst snd files ops];
    repeat match goal with
           | |- context [match ?f with Some _ => _ | None => _ end] =>
               destruct f; cbn [fst snd files ops]
           end;
    (split;
     [ rewrite <- ?app_assoc; cbn [app]; eexists; reflexivity
     | intros e He; inversion He; eexists; reflexivity ]).
Qed.

(** ** Rejection by validation *)

(** C3. Content whose UTF-8 length exceeds 2 MiB makes [write] fail with
    CONTENT_TOO_LARGE and status 413; the world is returned as it was given:
    no storage operation is started and every file is unchanged. *)
Theorem oversize_content_rejected_before_storage
    (env : WriteEnv) (s p : list Z) (w : World) :
  byteLength s > 2 * 1024 * 1024 ->
  writeMihomoConfigFile env (JsString s) p w
  = (inl (mkMihomoConfigError CONTENT_TOO_LARGE 413
            (lit "Config content exceeds 2097152 bytes")), w).
Proof.
  intros Hbig. rewrite write_string.
  destruct (Z.gtb_spec (byteLength s) MAX_MIHOMO_CONFIG_SIZE_BYTES) as [_|Hle].
  - reflexivity.
  - unfold MAX_MIHOMO_CONFIG_SIZE_BYTES in Hle. lia.
Qed.

Lemma oversize_content_rejected_witness :
  writeMihomoConfigFile (quiet_write 4242 0 0)
    (JsString (repeated 97 (2 * 1024 * 1024 + 1))) MIHOMO_CONFIG_FILE_PATH
    (fresh (sample_storage 1000))
  = (inl (mkMihomoConfigError CONTENT_TOO_LARGE 413
            (lit "Config content exceeds 2097152 bytes")),
     fresh (sample_storage 1000)).
Proof.
  apply oversize_content_rejected_before_storage.
  rewrite byteLength_repeated_ascii; lia.
Defined.

(** C4. A content that is not a string makes [write] fail with
    INVALID_CONTENT and status 400, the world returned as it was given (no
    storage operation); the PUT handler rejects a body whose [content] is not
    a string in the same way, and hands a string [content] to [write]. *)
Theorem non_string_content_rejected (env : WriteEnv) :
  (forall v p w,
      (forall s, v <> JsString s) ->
      writeMihomoConfigFile env v p w
      = (inl (mkMihomoConfigError INVALID_CONTENT 400
                (lit "`content` must be a string")), w))
  /\ (forall body w,
         (forall s, get_prop body (lit "content") <> JsString s) ->
         mihomo_config_put env (BodyResolves body) w
         = (inl (mkH3Error 400 (lit "`content` must be a string")
                   (Some INVALID_CONTENT)), w))
  /\ (forall body s w,
         get_prop body (lit "content") = JsString s ->
         mihomo_config_put env (BodyResolves body) w
         = match writeMihomoConfigFile env (JsString s)
                   MIHOMO_CONFIG_FILE_PATH w with
           | (inr r, w') => (inr (mkPutResponse true (write_mtimeMs r)), w')
           | (inl e, w') =>
               (inl (mkH3Error (statusCode e) (message e) (Some (code e))),
                w')
           end).
Proof.
  split; [| split].
  - intros v p w Hv. now rewrite write_not_string.
  - intros body w Hbody. unfold mihomo_config_put, readBody. run_storage.
    rewrite (bool_decide_eq_false_2
               (typeof (get_prop body (lit "content")) = lit "string")).
    + rewrite orb_true_r. reflexivity.
    + intros [s Hs]%typeof_string_iff. exact (Hbody s Hs).
  - intros body s w Hs. unfold mihomo_config_put, readBody. run_storage.
    rewrite Hs.
    rewrite bool_decide_eq_true_2 by reflexivity.
    destruct body; try discriminate Hs. cbn [falsy orb negb].
    destruct (writeMihomoConfigFile env (JsString s)
                MIHOMO_CONFIG_FILE_PATH w) as [[e | r] w']; reflexivity.
Qed.

Lemma non_string_content_rejected_witness :
  writeMihomoConfigFile (quiet_write 4242 0 0) (JsNumber (Finite 42))
    MIHOMO_CONFIG_FILE_PATH (fresh (sample_storage 1000))
  = (inl (mkMihomoConfigError INVALID_CONTENT 400
            (lit "`content` must be a string")),
     fresh (sample_storage 1000))
  /\ mihomo_config_put (quiet_write 4242 0 0)
       (BodyResolves (body_with_content JsNull))
       (fresh (sample_storage 1000))
     = (inl (mkH3Error 400 (lit "`content` must be a string")
               (Some INVALID_CONTENT)),
        fresh (sample_storage 1000)).
Proof.
  split.
  - apply (proj1 (non_string_content_rejected (quiet_write 4242 0 0))).
    intros s H. discriminate H.
  - apply (proj1 (proj2 (non_string_content_rejected (quiet_write 4242 0 0)))).
    intros s H. vm_compute in H. discriminate H.
Defined.

(** ** The anatomy of a write that passed validation *)

Ltac settle_lookups :=
  repeat first
    [ rewrite lookup_insert_eq
    | rewrite lookup_delete_eq
    | rewrite lookup_insert_ne by congruence
    | rewrite lookup_delete_ne by congruence
    | progress cbn [fst snd files ops data mtimeMs] ].

(** Either the rename went through, and the target holds the whole new
    content (the call succeeding unless the [stat] that follows fails), or it
    did not, and the target is as it was. The cleanup is started last in both
    cases and removes the temporary file unless it fails itself. *)
Lemma write_outcomes (env : WriteEnv) (s p : list Z) (w : World) :
  byteLength s <= MAX_MIHOMO_CONFIG_SIZE_BYTES ->
  let temp := tempPath_of env p in
  let bytes := utf8_encode s in
  let out := writeMihomoConfigFile env (JsString s) p w in
  (unlink_fault env = None -> files (snd out) !! temp = None)
  /\ ((files (snd out) !! p = Some (mkFile bytes (stamp env))
       /\ ops (snd out)
          = ops w ++ [OpWriteFile temp bytes; OpRename temp p; OpStat p;
                      OpUnlink temp]
       /\ writeFile_fault env = WriteGoesThrough
       /\ rename_fault env = None
       /\ fst out = match stat_fault env with
                    | None => inr (mkWriteResult (stamp env))
                    | Some c => inl (mapNodeError (errno c) Write)
                    end)
      \/ (files (snd out) !! p = files w !! p
          /\ (exists error, fst out = inl (mapNodeError error Write))
          /\ (ops (snd out)
              = ops w ++ [OpWriteFile temp bytes; OpUnlink temp]
              \/ ops (snd out)
                 = ops w ++ [OpWriteFile temp bytes; OpRename temp p;
                             OpUnlink temp]))).
Proof.
  intros Hle temp bytes out. subst out. rewrite write_string.
  destruct (Z.gtb_spec (byteLength s) MAX_MIHOMO_CONFIG_SIZE_BYTES) as [|_];
    [lia |].
  pose proof (tempPath_differs env p) as Hne. fold temp in Hne |- *.
  destruct env as [pid0 now0 stamp0 fw fr fs fu].
  cbn [writeFile_fault rename_fault stat_fault unlink_fault stamp] in *.
  clearbody temp. run_storage. fold bytes.
  destruct fw as [| c [k |]], fr as [cr |], fs as [cs |], fu as [cu |];
    settle_lookups;
    try (destruct (files w !! temp) eqn:Etemp; settle_lookups);
    (split; [ try discriminate; intros _; settle_lookups; try done |]);
    rewrite <- ?app_assoc; cbn [app];
    first
      [ left; repeat split; settle_lookups; done
      | right; repeat split; settle_lookups;
        first [ done | eexists; reflexivity | left; reflexivity
              | right; reflexivity ] ].
Qed.

Lemma write_success_validated (env : WriteEnv) (s p : list Z) (w : World)
    (r : WriteResult) :
  fst (writeMihomoConfigFile env (JsString s) p w) = inr r ->
  byteLength s <= MAX_MIHOMO_CONFIG_SIZE_BYTES.
Proof.
  rewrite write_string.
  destruct (Z.gtb_spec (byteLength s) MAX_MIHOMO_CONFIG_SIZE_BYTES);
    [discriminate | auto].
Qed.

Lemma surjective_pairing_write {A B} (x : A * B) (a : A) :
  fst x = a -> x = (a, snd x).
Proof. intros <-. now destruct x. Qed.

Lemma try_finally_catch_noop {E A} (m : M E A) (c : M JsValue unit)
    (w : World) :
  try_finally m (catch_noop c) w = (fst (m w), snd (c (snd (m w)))).
Proof. unfold try_finally, catch_noop. destruct (m w). reflexivity. Qed.

(** C10. A string of exactly 2 MiB of UTF-8 is not rejected for its size:
    the call goes on to write it whole to the temporary path, cannot fail
    with CONTENT_TOO_LARGE, and succeeds when storage does not fail. *)
Theorem content_of_exactly_max_size_accepted
    (env : WriteEnv) (s p : list Z) (w : World) :
  byteLength s = 2 * 1024 * 1024 ->
  let out := writeMihomoConfigFile env (JsString s) p w in
  (forall e, fst out = inl e -> code e <> CONTENT_TOO_LARGE)
  /\ (exists rest,
         ops (snd out)
         = ops w ++ OpWriteFile (tempPath_of env p) (utf8_encode s) :: rest)
  /\ (writeFile_fault env = WriteGoesThrough ->
      rename_fault env = None ->
      stat_fault env = None ->
      fst out = inr (mkWriteResult (stamp env))).
Proof.
  intros Hlen out.
  assert (byteLength s <= MAX_MIHOMO_CONFIG_SIZE_BYTES) as Hle
    by (unfold MAX_MIHOMO_CONFIG_SIZE_BYTES; lia).
  destruct (write_reaches_storage env s p w Hle) as [Hops Herr].
  split; [| split].
  - intros e He. destruct (Herr e He) as [error ->].
    apply mapNodeError_never_validation.
  - exact Hops.
  - intros Hw Hr Hs. subst out. rewrite write_string.
    destruct (Z.gtb_spec (byteLength s) MAX_MIHOMO_CONFIG_SIZE_BYTES);
      [lia |].
    rewrite try_finally_catch_noop. cbn [fst].
    run_storage. rewrite Hw, Hr, Hs. settle_lookups. reflexivity.
Qed.

Lemma content_of_exactly_max_size_accepted_witness :
  fst (writeMihomoConfigFile (quiet_write 4242 1700000000000 1700000000000)
         (JsString (repeated 97 (2 * 1024 * 1024))) MIHOMO_CONFIG_FILE_PATH
         (fresh (sample_storage 1000)))
  = inr (mkWriteResult 1700000000000).
Proof.
  apply (content_of_exactly_max_size_accepted
           (quiet_write 4242 1700000000000 1700000000000));
    [| reflexivity ..].
  rewrite byteLength_repeated_ascii; lia.
Defined.

(** ** Atomic replacement of the target *)

(** C2 (as written, refuted). With the old configuration on disk, a write of
    the new one during which the [stat] after the rename fails is a failed
    call (IO_ERROR, 500) that has replaced the target's content. *)
Lemma failed_write_can_replace_target :
  fst (writeMihomoConfigFile stat_failing_env (JsString new_config)
         MIHOMO_CONFIG_FILE_PATH (fresh (sample_storage 1000)))
  = inl (mkMihomoConfigError IO_ERROR 500
           (lit "Failed to write Mihomo config file"))
  /\ sample_storage 1000 !! MIHOMO_CONFIG_FILE_PATH
     = Some (mkFile (utf8_encode old_config) 1000)
  /\ files (snd (writeMihomoConfigFile stat_failing_env (JsString new_config)
                   MIHOMO_CONFIG_FILE_PATH (fresh (sample_storage 1000))))
       !! MIHOMO_CONFIG_FILE_PATH
     = Some (mkFile (utf8_encode new_config) 1700000000000)
  /\ utf8_encode new_config <> utf8_encode old_config.
Proof.
  repeat split; try (vm_compute; reflexivity).
  vm_compute. discriminate.
Qed.

(** C2 (amended). After any call, the target is whole: on success it holds
    the entire new content; on a failure that occurs before the rename has
    gone through (in validation, in the write of the temporary file or in
    the rename, so that no [stat] is started) it is exactly as before; on a
    failure of the [stat] that follows the rename it holds the entire new
    content. The target itself is never written to: the content goes whole
    to a temporary sibling path, which is then renamed onto it. *)
Theorem write_leaves_target_whole
    (env : WriteEnv) (v : JsValue) (p : list Z) (fs : gmap (list Z) File) :
  let temp := tempPath_of env p in
  let out := writeMihomoConfigFile env v p (fresh fs) in
  let target := files (snd out) !! p in
  (forall r, fst out = inr r ->
             exists s, v = JsString s
                       /\ target = Some (mkFile (utf8_encode s) (stamp env)))
  /\ (forall e, fst out = inl e ->
                ~ In (OpStat p) (ops (snd out)) ->
                target = fs !! p)
  /\ (forall e, fst out = inl e ->
                In (OpStat p) (ops (snd out)) ->
                exists s, v = JsString s
                          /\ target
                             = Some (mkFile (utf8_encode s) (stamp env)))
  /\ temp <> p
  /\ (forall op, In op (ops (snd out)) ->
                 (exists s, v = JsString s
                            /\ op = OpWriteFile temp (utf8_encode s))
                 \/ op = OpRename temp p
                 \/ op = OpStat p
                 \/ op = OpUnlink temp).
Proof.
  intros temp out target.
  assert (temp <> p) as Hne by apply tempPath_differs.
  destruct (classic_string v) as [[s ->] | Hv].
  - destruct (Z.gtb_spec (byteLength s) MAX_MIHOMO_CONFIG_SIZE_BYTES)
      as [Hbig | Hle].
    + assert (out = (inl content_too_large_error, fresh fs)) as Hout.
      { subst out. rewrite write_string.
        destruct (Z.gtb_spec (byteLength s) MAX_MIHOMO_CONFIG_SIZE_BYTES);
          [reflexivity | lia]. }
      subst target. rewrite Hout. cbn [fst snd fresh files ops].
      repeat split; try discriminate; try tauto; intros; contradiction.
    + destruct (write_outcomes env s p (fresh fs) Hle) as [_ Hcases].
      fold temp in Hcases. fold out in Hcases. cbn [fresh ops app] in Hcases.
      fold target in Hcases.
      destruct Hcases as [(Ht & Hops & _ & _ & _)
                         | (Ht & [error Herr] & Hops)].
      * rewrite Hops. repeat split; eauto.
        -- intros e _ Hno. exfalso. apply Hno. cbn. tauto.
        -- intros op Hin. cbn in Hin. intuition (subst; eauto).
      * repeat split; auto.
        -- intros r Hr. rewrite Herr in Hr. discriminate Hr.
        -- intros e _ Hin. exfalso.
           destruct Hops as [Hops | Hops]; rewrite Hops in Hin; cbn in Hin;
             intuition discriminate.
        -- intros op Hin.
           destruct Hops as [Hops | Hops]; rewrite Hops in Hin; cbn in Hin;
             intuition (subst; eauto).
  - assert (out = (inl invalid_content_error, fresh fs)) as Hout
      by (subst out; now rewrite write_not_string).
    subst target. rewrite Hout. cbn [fst snd fresh files ops].
    repeat split; try discriminate; try tauto; intros; contradiction.
Qed.

(** ** Cleanup of the temporary file *)

(** A call rejected by validation leaves before the temporary path is
    computed: it starts no storage operation at all, so there is nothing for
    a cleanup to remove. *)
Example rejected_write_attempts_no_cleanup :
  fst (writeMihomoConfigFile (quiet_write 4242 1700000000000 1700000000000)
         (JsNumber (Finite 42)) MIHOMO_CONFIG_FILE_PATH
         (fresh (sample_storage 1000)))
  = inl (mkMihomoConfigError INVALID_CONTENT 400
           (lit "`content` must be a string"))
  /\ ~ In (OpUnlink
             (tempPath_of (quiet_write 4242 1700000000000 1700000000000)
                MIHOMO_CONFIG_FILE_PATH))
          (ops (snd (writeMihomoConfigFile
                       (quiet_write 4242 1700000000000 1700000000000)
                       (JsNumber (Finite 42)) MIHOMO_CONFIG_FILE_PATH
                       (fresh (sample_storage 1000))))).
Proof.
  split; [reflexivity |]. intros H. exact H.
Qed.

(** C7. The outcome of the cleanup never changes what the call returns or
    throws, for any input. On every exit path of the [try], success or
    failure (every path on which a temporary path exists), the removal of
    the temporary path is attempted, as the last storage operation started,
    and the temporary path holds no file afterwards unless the cleanup
    itself failed. A call that fails validation leaves the world as it was,
    so after any call whose cleanup did not fail either no file is at the
    temporary path or nothing was touched at all. *)
Theorem cleanup_is_attempted_and_swallowed
    (env : WriteEnv) (v : JsValue) (p : list Z) (w : World) :
  let temp := tempPath_of env p in
  let out := writeMihomoConfigFile env v p w in
  (forall f,
      fst (writeMihomoConfigFile (with_unlink_fault f env) v p w) = fst out)
  /\ (forall s,
         v = JsString s ->
         byteLength s <= MAX_MIHOMO_CONFIG_SIZE_BYTES ->
         last (ops (snd out)) = Some (OpUnlink temp)
         /\ (unlink_fault env = None -> files (snd out) !! temp = None))
  /\ ((forall s, v = JsString s ->
                 byteLength s > MAX_MIHOMO_CONFIG_SIZE_BYTES) ->
      snd out = w)
  /\ (unlink_fault env = None ->
      files (snd out) !! temp = None \/ snd out = w).
Proof.
  intros temp out. split; [| split; [| split]].
  - intros f. subst out.
    destruct (classic_string v) as [[s ->] | Hv].
    + rewrite !write_string.
      destruct (Z.gtb_spec (byteLength s) MAX_MIHOMO_CONFIG_SIZE_BYTES);
        [reflexivity |].
      rewrite !try_finally_catch_noop. reflexivity.
    + now rewrite !write_not_string.
  - intros s -> Hle.
    destruct (write_outcomes env s p w Hle) as [Htemp Hcases].
    fold temp in Htemp, Hcases. fold out in Htemp, Hcases.
    split; [| exact Htemp].
    destruct Hcases as [(_ & Hops & _) | (_ & _ & [Hops | Hops])];
      rewrite Hops.
    + change [OpWriteFile temp (utf8_encode s); OpRename temp p; OpStat p;
              OpUnlink temp]
        with ([OpWriteFile temp (utf8_encode s); OpRename temp p; OpStat p]
              ++ [OpUnlink temp]).
      now rewrite app_assoc, last_snoc.
    + change [OpWriteFile temp (utf8_encode s); OpUnlink temp]
        with ([OpWriteFile temp (utf8_encode s)] ++ [OpUnlink temp]).
      now rewrite app_assoc, last_snoc.
    + change [OpWriteFile temp (utf8_encode s); OpRename temp p;
              OpUnlink temp]
        with ([OpWriteFile temp (utf8_encode s); OpRename temp p]
              ++ [OpUnlink temp]).
      now rewrite app_assoc, last_snoc.
  - intros Hbad. subst out.
    destruct (classic_string v) as [[s ->] | Hv].
    + specialize (Hbad s eq_refl). rewrite write_string.
      destruct (Z.gtb_spec (byteLength s) MAX_MIHOMO_CONFIG_SIZE_BYTES);
        [reflexivity | lia].
    + now rewrite write_not_string.
  - intros Hquiet. subst out.
    destruct (classic_string v) as [[s ->] | Hv];
      [| right; now rewrite write_not_string].
    destruct (Z.gtb_spec (byteLength s) MAX_MIHOMO_CONFIG_SIZE_BYTES)
      as [Hbig | Hle].
    + right. rewrite write_string.
      destruct (Z.gtb_spec (byteLength s) MAX_MIHOMO_CONFIG_SIZE_BYTES);
        [reflexivity | lia].
    + left. exact (proj1 (write_outcomes env s p w Hle) Hquiet).
Qed.

(** A cleanup that fails ([EBUSY]) after a rename that failed ([EXDEV]):
    the call still reports the rename's failure, and with a quiet cleanup the
    temporary file is gone. *)
Lemma cleanup_is_attempted_and_swallowed_witness :
  fst (writeMihomoConfigFile
         (mkWriteEnv 4242 1700000000000 1700000000000 WriteGoesThrough
            (Some (lit "EXDEV")) None (Some (lit "EBUSY")))
         (JsString new_config) MIHOMO_CONFIG_FILE_PATH
         (fresh (sample_storage 1000)))
  = fst (writeMihomoConfigFile
           (mkWriteEnv 4242 1700000000000 1700000000000 WriteGoesThrough
              (Some (lit "EXDEV")) None None)
           (JsString new_config) MIHOMO_CONFIG_FILE_PATH
           (fresh (sample_storage 1000)))
  /\ files (snd (writeMihomoConfigFile
                   (mkWriteEnv 4242 1700000000000 1700000000000
                      WriteGoesThrough (Some (lit "EXDEV")) None None)
                   (JsString new_config) MIHOMO_CONFIG_FILE_PATH
                   (fresh (sample_storage 1000))))
       !! lit "/opt/mihomo/config.yaml.4242.1700000000000.tmp"
     = None.
Proof.
  pose proof (cleanup_is_attempted_and_swallowed
                (mkWriteEnv 4242 1700000000000 1700000000000 WriteGoesThrough
                   (Some (lit "EXDEV")) None None)
                (JsString new_config) MIHOMO_CONFIG_FILE_PATH
                (fresh (sample_storage 1000))) as [Hsame [Hvalid _]].
  split.
  - exact (Hsame (Some (lit "EBUSY"))).
  - destruct (Hvalid new_config eq_refl) as [_ Hgone].
    + vm_compute. discriminate.
    + exact (Hgone eq_refl).
Defined.

(** ** Reading back what was written *)

Lemma write_success_target (env : WriteEnv) (s p : list Z) (w w' : World)
    (r : WriteResult) :
  writeMihomoConfigFile env (JsString s) p w = (inr r, w') ->
  r = mkWriteResult (stamp env)
  /\ files w' !! p = Some (mkFile (utf8_encode s) (stamp env)).
Proof.
  intros Hrun.
  assert (byteLength s <= MAX_MIHOMO_CONFIG_SIZE_BYTES) as Hle
    by (apply (write_success_validated env s p w r); now rewrite Hrun).
  destruct (write_outcomes env s p w Hle) as [_ Hcases].
  rewrite Hrun in Hcases. cbn [fst snd] in Hcases.
  destruct Hcases as [(Ht & _ & _ & _ & Hres) | (_ & [error Herr] & _)].
  - split; [| exact Ht].
    destruct (stat_fault env); congruence.
  - discriminate Herr.
Qed.

Lemma read_result (renv : ReadEnv) (p : list Z) (w w' : World)
    (r : ReadResult) :
  readMihomoConfigFile renv p w = (inr r, w') ->
  exists f, files w !! p = Some f
            /\ r = mkReadResult (utf8_decode (data f)) (mtimeMs f).
Proof.
  unfold readMihomoConfigFile. run_storage.
  destruct (readFile_fault renv), (read_stat_fault renv);
    cbn [fst snd files ops];
    destruct (files w !! p) as [f |] eqn:Ef;
    cbn [fst snd files ops]; rewrite ?Ef; cbn [fst snd files ops];
    intros H; inversion H; eauto.
Qed.

Lemma read_quiet (p : list Z) (w : World) (f : File) :
  files w !! p = Some f ->
  readMihomoConfigFile quiet_read p w
  = (inr (mkReadResult (utf8_decode (data f)) (mtimeMs f)),
     mkWorld (files w) (ops w ++ [OpReadFile p; OpStat p])).
Proof.
  intros Hf. unfold readMihomoConfigFile, quiet_read. run_storage.
  rewrite Hf. cbn [fst snd files ops]. rewrite Hf. cbn [fst snd files ops].
  now rewrite <- app_assoc.
Qed.

(** C1 (as written, refuted). The string made of one unpaired surrogate is
    three bytes of UTF-8, its write succeeds, and the read that follows
    returns U+FFFD instead of it. *)
Lemma lone_surrogate_not_read_back :
  byteLength lone_surrogate = 3
  /\ fst (writeMihomoConfigFile
            (quiet_write 4242 1700000000000 1700000000000)
            (JsString lone_surrogate) MIHOMO_CONFIG_FILE_PATH
            (fresh (sample_storage 1000)))
     = inr (mkWriteResult 1700000000000)
  /\ fst (readMihomoConfigFile quiet_read MIHOMO_CONFIG_FILE_PATH
            (snd (writeMihomoConfigFile
                    (quiet_write 4242 1700000000000 1700000000000)
                    (JsString lone_surrogate) MIHOMO_CONFIG_FILE_PATH
                    (fresh (sample_storage 1000)))))
     = inr (mkReadResult [0xFFFD] 1700000000000)
  /\ [0xFFFD] <> lone_surrogate.
Proof.
  repeat split; try (vm_compute; reflexivity).
  discriminate.
Qed.

(** C1 (amended). For every well-formed string (no unpaired surrogate), a
    successful [write] followed by [read] of the same path returns exactly
    the written string: the read succeeds when storage does not fail, and
    whenever it returns a result that result's [content] is the string. A
    successful write implies the size bound. *)
Theorem write_then_read_returns_content
    (env : WriteEnv) (s p : list Z) (w w' : World) (r : WriteResult) :
  well_formed s = true ->
  writeMihomoConfigFile env (JsString s) p w = (inr r, w') ->
  byteLength s <= 2 * 1024 * 1024
  /\ fst (readMihomoConfigFile quiet_read p w')
     = inr (mkReadResult s (write_mtimeMs r))
  /\ (forall renv r' w'',
         readMihomoConfigFile renv p w' = (inr r', w'') -> content r' = s).
Proof.
  intros Hwf Hrun.
  destruct (write_success_target env s p w w' r Hrun) as [-> Htarget].
  split; [| split].
  - apply (write_success_validated env s p w (mkWriteResult (stamp env))).
    now rewrite Hrun.
  - rewrite (read_quiet p w' _ Htarget). cbn [fst data mtimeMs].
    now rewrite utf8_roundtrip.
  - intros renv r' w'' Hread.
    destruct (read_result renv p w' w'' r' Hread) as (f & Hf & ->).
    rewrite Htarget in Hf. inversion Hf. cbn [content data].
    now apply utf8_roundtrip.
Qed.

Lemma write_then_read_returns_content_witness :
  fst (readMihomoConfigFile quiet_read MIHOMO_CONFIG_FILE_PATH
         (snd (writeMihomoConfigFile
                 (quiet_write 4242 1700000000000 1700000000000)
                 (JsString new_config) MIHOMO_CONFIG_FILE_PATH
                 (fresh (sample_storage 1000)))))
  = inr (mkReadResult new_config 1700000000000).
Proof.
  refine (proj1 (proj2 (write_then_read_returns_content
                          (quiet_write 4242 1700000000000 1700000000000)
                          new_config MIHOMO_CONFIG_FILE_PATH
                          (fresh (sample_storage 1000)) _
                          (mkWriteResult 1700000000000) _ _))).
  - vm_compute. reflexivity.
  - apply surjective_pairing_write.
    vm_compute. reflexivity.
Defined.

(** ** The returned modification time *)

(** C8 (as written, refuted). The file on disk carries a modification time
    five seconds ahead of the storage clock; the write succeeds and returns
    the clock's time, which is less than what a read observed just before. *)
Lemma write_can_return_earlier_mtime :
  fst (readMihomoConfigFile quiet_read MIHOMO_CONFIG_FILE_PATH
         (fresh (sample_storage 1700000005000)))
  = inr (mkReadResult old_config 1700000005000)
  /\ fst (writeMihomoConfigFile
            (quiet_write 4242 1700000000000 1700000000000)
            (JsString new_config) MIHOMO_CONFIG_FILE_PATH
            (fresh (sample_storage 1700000005000)))
     = inr (mkWriteResult 1700000000000)
  /\ 1700000000000 < 1700000005000.
Proof.
  repeat split; vm_compute; reflexivity.
Qed.

(** C8 (amended). The [mtimeMs] a successful write returns is the one the
    target carries after the rename, that is, the time the storage clock
    showed when the temporary file was written: a read that follows observes
    the same value, and it is greater than or equal to the [mtimeMs] a read
    would have observed just before the call whenever that earlier time is
    not ahead of the clock. *)
Theorem returned_mtime_is_the_write_stamp
    (env : WriteEnv) (s p : list Z) (w w' : World) (r : WriteResult) :
  writeMihomoConfigFile env (JsString s) p w = (inr r, w') ->
  write_mtimeMs r = stamp env
  /\ (forall renv after w'',
         readMihomoConfigFile renv p w' = (inr after, w'') ->
         read_mtimeMs after = write_mtimeMs r)
  /\ (forall renv before w0,
         readMihomoConfigFile renv p w = (inr before, w0) ->
         read_mtimeMs before <= stamp env ->
         write_mtimeMs r >= read_mtimeMs before).
Proof.
  intros Hrun.
  destruct (write_success_target env s p w w' r Hrun) as [-> Htarget].
  cbn [write_mtimeMs]. repeat split.
  - intros renv after w'' Hread.
    destruct (read_result renv p w' w'' after Hread) as (f & Hf & ->).
    rewrite Htarget in Hf. now inversion Hf.
  - intros renv before w0 _ Hclock. lia.
Qed.

Lemma returned_mtime_is_the_write_stamp_witness :
  write_mtimeMs (mkWriteResult 1700000000000)
  >= read_mtimeMs (mkReadResult old_config 1000).
Proof.
  refine (proj2 (proj2 (returned_mtime_is_the_write_stamp
                          (quiet_write 4242 1700000000000 1700000000000)
                          new_config MIHOMO_CONFIG_FILE_PATH
                          (fresh (sample_storage 1000)) _
                          (mkWriteResult 1700000000000) _))
            quiet_read (mkReadResult old_config 1000) _ _ _).
  - apply surjective_pairing_write. vm_compute. reflexivity.
  - apply surjective_pairing_write. vm_compute. reflexivity.
  - vm_compute. discriminate.
Defined.

(** ** The error classifier and failing reads *)

Lemma strict_eq_lit_spec (v : JsValue) (l : string) :
  strict_eq_lit v l = true <-> v = JsString (lit l).
Proof.
  destruct v; cbn; try (split; [discriminate | intros H; discriminate H]).
  rewrite bool_decide_eq_true. split; congruence.
Qed.

Lemma strict_eq_lit_false (v : JsValue) (l : string) :
  strict_eq_lit v l = false <-> v <> JsString (lit l).
Proof.
  rewrite <- strict_eq_lit_spec. destruct (strict_eq_lit v l); split;
    congruence.
Qed.

(** C5. The classifier is a function of the error's [code] and the action:
    [ENOENT] gives NOT_FOUND/404, [EACCES] and [EPERM] give
    PERMISSION_DENIED/403, anything else IO_ERROR/500; the action changes
    neither the code nor the status, and two errors with the same [code]
    give the same [MihomoConfigError]. *)
Theorem mapNodeError_classification (error : JsValue) (action : Action) :
  let signal := get_prop_opt error (lit "code") in
  (signal = JsString (lit "ENOENT") ->
   mapNodeError error action
   = mkMihomoConfigError NOT_FOUND 404 (lit "Mihomo config file not found"))
  /\ (signal = JsString (lit "EACCES") \/ signal = JsString (lit "EPERM") ->
      code (mapNodeError error action) = PERMISSION_DENIED
      /\ statusCode (mapNodeError error action) = 403)
  /\ (signal <> JsString (lit "ENOENT") ->
      signal <> JsString (lit "EACCES") ->
      signal <> JsString (lit "EPERM") ->
      code (mapNodeError error action) = IO_ERROR
      /\ statusCode (mapNodeError error action) = 500)
  /\ (forall action',
         code (mapNodeError error action') = code (mapNodeError error action)
         /\ statusCode (mapNodeError error action')
            = statusCode (mapNodeError error action))
  /\ (forall error',
         get_prop_opt error' (lit "code") = signal ->
         mapNodeError error' action = mapNodeError error action).
Proof.
  intros signal. unfold mapNodeError. fold signal.
  repeat split.
  - intros Hs. now rewrite (proj2 (strict_eq_lit_spec signal "ENOENT") Hs).
  - destruct H as [Hs | Hs]; rewrite Hs; reflexivity.
  - destruct H as [Hs | Hs]; rewrite Hs; reflexivity.
  - apply strict_eq_lit_false in H, H0, H1. now rewrite H, H0, H1.
  - apply strict_eq_lit_false in H, H0, H1. now rewrite H, H0, H1.
  - destruct (strict_eq_lit signal "ENOENT"); [reflexivity |].
    destruct (strict_eq_lit signal "EACCES" || strict_eq_lit signal "EPERM");
      reflexivity.
  - destruct (strict_eq_lit signal "ENOENT"); [reflexivity |].
    destruct (strict_eq_lit signal "EACCES" || strict_eq_lit signal "EPERM");
      reflexivity.
  - intros error' ->. reflexivity.
Qed.

Lemma mapNodeError_classification_witness :
  mapNodeError (errno (lit "ENOENT")) Read
  = mkMihomoConfigError NOT_FOUND 404 (lit "Mihomo config file not found")
  /\ code (mapNodeError (errno (lit "EPERM")) Write) = PERMISSION_DENIED
  /\ statusCode (mapNodeError JsUndefined Write) = 500.
Proof.
  split; [| split].
  - apply (proj1 (mapNodeError_classification (errno (lit "ENOENT")) Read)).
    reflexivity.
  - apply (proj1 (proj2 (mapNodeError_classification
                           (errno (lit "EPERM")) Write))).
    right. reflexivity.
  - apply (proj1 (proj2 (proj2 (mapNodeError_classification
                                  JsUndefined Write))));
      discriminate.
Defined.

Lemma read_files_unchanged (renv : ReadEnv) (p : list Z) (w : World) :
  files (snd (readMihomoConfigFile renv p w)) = files w.
Proof.
  unfold readMihomoConfigFile. run_storage.
  destruct (readFile_fault renv), (read_stat_fault renv);
    cbn [fst snd files ops];
    destruct (files w !! p) eqn:Ef;
    cbn [fst snd files ops]; rewrite ?Ef; reflexivity.
Qed.

(** The classifier on the error object of a storage failure. *)
Lemma mapNodeError_errno (c : list Z) (action : Action) :
  (c = lit "ENOENT" ->
   mapNodeError (errno c) action
   = mkMihomoConfigError NOT_FOUND 404 (lit "Mihomo config file not found"))
  /\ (c = lit "EACCES" \/ c = lit "EPERM" ->
      code (mapNodeError (errno c) action) = PERMISSION_DENIED
      /\ statusCode (mapNodeError (errno c) action) = 403)
  /\ (c <> lit "ENOENT" -> c <> lit "EACCES" -> c <> lit "EPERM" ->
      code (mapNodeError (errno c) action) = IO_ERROR
      /\ statusCode (mapNodeError (errno c) action) = 500).
Proof.
  unfold mapNodeError, errno. cbn [get_prop_opt get_prop lookup_prop].
  rewrite bool_decide_eq_true_2 by reflexivity.
  split; [| split].
  - intros ->. reflexivity.
  - intros [-> | ->]; split; reflexivity.
  - intros H1 H2 H3.
    rewrite (proj2 (strict_eq_lit_false (JsString c) "ENOENT"))
      by congruence.
    rewrite (proj2 (strict_eq_lit_false (JsString c) "EACCES"))
      by congruence.
    rewrite (proj2 (strict_eq_lit_false (JsString c) "EPERM"))
      by congruence.
    split; reflexivity.
Qed.

(** The outcome of a read, from what storage reports. *)
Lemma read_outcome (renv : ReadEnv) (p : list Z) (w : World) :
  fst (readMihomoConfigFile renv p w)
  = match first_rejection renv (files w !! p), files w !! p with
    | Some c, _ => inl (mapNodeError (errno c) Read)
    | None, Some f => inr (mkReadResult (utf8_decode (data f)) (mtimeMs f))
    | None, None => inl (mapNodeError (errno (lit "ENOENT")) Read)
    end.
Proof.
  unfold readMihomoConfigFile, first_rejection, reported. run_storage.
  destruct (readFile_fault renv) as [c1 |], (read_stat_fault renv) as [c2 |];
    cbn [fst snd files ops];
    destruct (files w !! p) as [f |] eqn:Ef;
    cbn [fst snd files ops]; rewrite ?Ef; cbn [fst snd files ops];
    try destruct (stat_settles_first renv); reflexivity.
Qed.

(** C6 (as written, refuted). No file exists at a path below the
    configuration file, and storage reports that a parent of the path is not
    a directory ([ENOTDIR]): the read fails with IO_ERROR and status 500,
    not with NOT_FOUND. *)
Lemma absent_path_can_fail_with_io_error :
  sample_storage 1000 !! (MIHOMO_CONFIG_FILE_PATH ++ lit "/extra") = None
  /\ fst (readMihomoConfigFile
            (mkReadEnv (Some (lit "ENOTDIR")) (Some (lit "ENOTDIR")) false)
            (MIHOMO_CONFIG_FILE_PATH ++ lit "/extra")
            (fresh (sample_storage 1000)))
     = inl (mkMihomoConfigError IO_ERROR 500
              (lit "Failed to read Mihomo config file")).
Proof. split; vm_compute; reflexivity. Qed.

(** C6 (amended). A read changes no file, whatever its outcome. At a path
    where no file exists it always fails, and with NOT_FOUND and status 404
    when the absence is what storage reports. The error of a failing read is
    the classifier's result on the error storage rejected with first: the
    code [ENOENT] gives NOT_FOUND/404, [EACCES] and [EPERM] give
    PERMISSION_DENIED/403, every other code IO_ERROR/500; when storage
    rejects nothing the read returns the decoded content and the
    modification time of the file. *)
Theorem read_failures_classified (renv : ReadEnv) (p : list Z) (w : World) :
  let out := readMihomoConfigFile renv p w in
  files (snd out) = files w
  /\ (files w !! p = None -> exists e, fst out = inl e)
  /\ (files w !! p = None ->
      readFile_fault renv = None ->
      read_stat_fault renv = None ->
      fst out
      = inl (mkMihomoConfigError NOT_FOUND 404
               (lit "Mihomo config file not found")))
  /\ (forall c,
         first_rejection renv (files w !! p) = Some c ->
         fst out = inl (mapNodeError (errno c) Read)
         /\ (c = lit "ENOENT" ->
             fst out
             = inl (mkMihomoConfigError NOT_FOUND 404
                      (lit "Mihomo config file not found")))
         /\ (c = lit "EACCES" \/ c = lit "EPERM" ->
             fst out
             = inl (mkMihomoConfigError PERMISSION_DENIED 403
                      (lit "Permission denied while trying to read Mihomo config file")))
         /\ (c <> lit "ENOENT" -> c <> lit "EACCES" -> c <> lit "EPERM" ->
             fst out
             = inl (mkMihomoConfigError IO_ERROR 500
                      (lit "Failed to read Mihomo config file"))))
  /\ (first_rejection renv (files w !! p) = None ->
      exists f,
        files w !! p = Some f
        /\ fst out
           = inr (mkReadResult (utf8_decode (data f)) (mtimeMs f))).
Proof.
  intros out. subst out.
  pose proof (read_outcome renv p w) as Hout.
  split; [apply read_files_unchanged |].
  split; [| split; [| split]].
  - intros Habsent. rewrite Hout, Habsent.
    destruct (first_rejection renv None); eauto.
  - intros Habsent Hr Hs. rewrite Hout, Habsent.
    unfold first_rejection, reported. rewrite Hr, Hs.
    destruct (stat_settles_first renv); reflexivity.
  - intros c Hc. rewrite Hout, Hc.
    split; [reflexivity |]. split; [| split].
    + intros ->. reflexivity.
    + intros [-> | ->]; reflexivity.
    + intros H1 H2 H3.
      unfold mapNodeError, errno. cbn [get_prop_opt get_prop lookup_prop].
      rewrite bool_decide_eq_true_2 by reflexivity.
      rewrite (proj2 (strict_eq_lit_false (JsString c) "ENOENT"))
        by congruence.
      rewrite (proj2 (strict_eq_lit_false (JsString c) "EACCES"))
        by congruence.
      rewrite (proj2 (strict_eq_lit_false (JsString c) "EPERM"))
        by congruence.
      reflexivity.
  - intros Hnone. rewrite Hout, Hnone.
    destruct (files w !! p) as [f |] eqn:Ef; [eauto |].
    unfold first_rejection, reported in Hnone.
    destruct (readFile_fault renv), (read_stat_fault renv);
      discriminate Hnone.
Qed.

Lemma read_failures_classified_witness :
  fst (readMihomoConfigFile
         (mkReadEnv (Some (lit "EACCES")) None false)
         MIHOMO_CONFIG_FILE_PATH (fresh (sample_storage 1000)))
  = inl (mkMihomoConfigError PERMISSION_DENIED 403
           (lit "Permission denied while trying to read Mihomo config file"))
  /\ fst (readMihomoConfigFile quiet_read (lit "/opt/mihomo/missing.yaml")
            (fresh (sample_storage 1000)))
     = inl (mkMihomoConfigError NOT_FOUND 404
              (lit "Mihomo config file not found")).
Proof.
  split.
  - refine (proj1 (proj2 (proj2
              (proj1 (proj2 (proj2 (proj2
                 (read_failures_classified
                    (mkReadEnv (Some (lit "EACCES")) None false)
                    MIHOMO_CONFIG_FILE_PATH
                    (fresh (sample_storage 1000))))))
                 (lit "EACCES") _))) _).
    + vm_compute. reflexivity.
    + left. reflexivity.
  - apply (proj1 (proj2 (proj2 (read_failures_classified quiet_read
                                  (lit "/opt/mihomo/missing.yaml")
                                  (fresh (sample_storage 1000))))));
      vm_compute; reflexivity.
Defined.

(** ** The bounded remote fetch *)

Lemma startsWith_nonempty (url : list Z) (c : Z) (prefix : list Z) :
  startsWith url (c :: prefix) = true -> url <> [].
Proof. destruct url; [discriminate | discriminate]. Qed.

Lemma fetch_remote_accepted_url
    (Number : list Z -> number) (fetch : list Z -> FetchOutcome)
    (url : list Z) :
  startsWith url (lit "http://") || startsWith url (lit "https://") = true ->
  fetch_remote Number fetch (JsString url)
  = match fetch_try Number (fetch url) with
    | inr content => inr content
    | inl error => inl (fetch_catch error)
    end.
Proof.
  intros Hurl. unfold fetch_remote.
  assert (url <> []) as Hne.
  { apply orb_true_iff in Hurl as [H | H];
      exact (startsWith_nonempty _ _ _ H). }
  cbn [falsy typeof]. rewrite (bool_decide_eq_false_2 _ Hne).
  rewrite bool_decide_eq_true_2 by reflexivity. cbn [negb orb].
  destruct (startsWith url (lit "http://")),
    (startsWith url (lit "https://")); try discriminate Hurl; reflexivity.
Qed.

(** C9. For a remote response that is [ok], the fetch handler rejects with
    status 413 when a [content-length] header is present and its numeric
    value exceeds 2 MiB, and when the UTF-8 length of the decoded body
    exceeds 2 MiB (the limit of the config store, measured as the store
    measures it); a body within the limit whose header does not exceed it is
    returned. [Number] is any function that, like JavaScript's, gives [0]
    for the empty string. *)
Theorem remote_fetch_bounded
    (Number : list Z -> number) (fetch : list Z -> FetchOutcome)
    (url : list Z) (response : Response) :
  Number [] = Finite 0 ->
  startsWith url (lit "http://") || startsWith url (lit "https://") = true ->
  fetch url = FetchResolves response ->
  resp_ok response = true ->
  let result := fetch_remote Number fetch (JsString url) in
  h3_statusCode too_large_error = 413
  /\ (forall cl,
         resp_content_length response = Some cl ->
         number_gt (Number cl) MAX_MIHOMO_CONFIG_SIZE_BYTES = true ->
         result = inl too_large_error)
  /\ (forall body,
         resp_text response = TextResolves body ->
         byteLength body > MAX_MIHOMO_CONFIG_SIZE_BYTES ->
         result = inl too_large_error)
  /\ (forall body,
         (forall cl, resp_content_length response = Some cl ->
                     number_gt (Number cl) MAX_MIHOMO_CONFIG_SIZE_BYTES
                     = false) ->
         resp_text response = TextResolves body ->
         byteLength body <= MAX_MIHOMO_CONFIG_SIZE_BYTES ->
         result = inr body).
Proof.
  intros Hempty Hurl Hfetch Hok result. subst result.
  rewrite (fetch_remote_accepted_url Number fetch url Hurl).
  rewrite Hfetch. unfold fetch_try. rewrite Hok. cbn [negb].
  split; [reflexivity |]. split; [| split].
  - intros cl Hcl Hgt. rewrite Hcl, Hgt.
    assert (cl <> []) as Hne.
    { intros ->. rewrite Hempty in Hgt. discriminate Hgt. }
    rewrite (bool_decide_eq_false_2 _ Hne). reflexivity.
  - intros body Htext Hbig. rewrite Htext.
    rewrite <- byteLength_utf8_encode.
    destruct (Z.gtb_spec (byteLength body) MAX_MIHOMO_CONFIG_SIZE_BYTES);
      [| lia].
    destruct (match resp_content_length response with
              | Some cl => _
              | None => false
              end); reflexivity.
  - intros body Hheader Htext Hle. rewrite Htext.
    rewrite <- byteLength_utf8_encode.
    destruct (Z.gtb_spec (byteLength body) MAX_MIHOMO_CONFIG_SIZE_BYTES);
      [lia |].
    destruct (resp_content_length response) as [cl |]; [| reflexivity].
    rewrite (Hheader cl eq_refl), andb_false_r. reflexivity.
Qed.

(** A response that declares 3000000 bytes is rejected for its header. *)
Lemma remote_fetch_bounded_witness :
  fetch_remote Number_decimal
    (fun _ => FetchResolves
                (mkResponse true 200 (Some (lit "3000000"))
                   (TextResolves new_config)))
    (JsString (lit "https://example.com/config.yaml"))
  = inl (mkH3Error 413 (lit "Remote file exceeds 2097152 bytes limit") None).
Proof.
  refine (proj1 (proj2 (remote_fetch_bounded Number_decimal
                          (fun _ => FetchResolves
                                      (mkResponse true 200
                                         (Some (lit "3000000"))
                                         (TextResolves new_config)))
                          (lit "https://example.com/config.yaml")
                          (mkResponse true 200 (Some (lit "3000000"))
                             (TextResolves new_config))
                          _ _ _ _))
            (lit "3000000") _ _);
    reflexivity.
Defined.

(** ** The handlers at work *)

Example get_missing_file :
  fst (mihomo_config_get quiet_read (fresh ∅))
  = inl (mkH3Error 404 (lit "Mihomo config file not found") (Some NOT_FOUND)).
Proof. vm_compute. reflexivity. Qed.

Example get_existing_file :
  fst (mihomo_config_get quiet_read (fresh (sample_storage 1000)))
  = inr (mkReadResult old_config 1000).
Proof. vm_compute. reflexivity. Qed.

Example put_new_config :
  fst (mihomo_config_put (quiet_write 4242 1700000000000 1700000000000)
         (BodyResolves (body_with_content (JsString new_config)))
         (fresh (sample_storage 1000)))
  = inr (mkPutResponse true 1700000000000).
Proof. vm_compute. reflexivity. Qed.

Example put_without_body :
  fst (mihomo_config_put (quiet_write 4242 1700000000000 1700000000000)
         (BodyResolves JsUndefined) (fresh (sample_storage 1000)))
  = inl (mkH3Error 400 (lit "`content` must be a string")
           (Some INVALID_CONTENT)).
Proof. vm_compute. reflexivity. Qed.

Example put_unreadable_body :
  fst (mihomo_config_put (quiet_write 4242 1700000000000 1700000000000)
         BodyRejects (fresh (sample_storage 1000)))
  = inl (mkH3Error 500
           (lit "Unexpected error while writing Mihomo config file") None).
Proof. vm_compute. reflexivity. Qed.

(** An unpaired surrogate sent through the PUT handler comes back from the
    GET handler as U+FFFD. *)
Example put_then_get_lone_surrogate :
  fst (mihomo_config_get quiet_read
         (snd (mihomo_config_put
                 (quiet_write 4242 1700000000000 1700000000000)
                 (BodyResolves (body_with_content (JsString lone_surrogate)))
                 (fresh (sample_storage 1000)))))
  = inr (mkReadResult [0xFFFD] 1700000000000).
Proof. vm_compute. reflexivity. Qed.

(** A write interrupted in the middle of the temporary file leaves the
    target as it was and no temporary file behind. *)
Example partial_write_cleaned_up :
  fst (writeMihomoConfigFile
         (mkWriteEnv 4242 1700000000000 1700000000000
            (WriteFails (lit "ENOSPC") (Some 4%nat)) None None None)
         (JsString new_config) MIHOMO_CONFIG_FILE_PATH
         (fresh (sample_storage 1000)))
  = inl (mkMihomoConfigError IO_ERROR 500
           (lit "Failed to write Mihomo config file"))
  /\ map_to_list
       (files (snd (writeMihomoConfigFile
                      (mkWriteEnv 4242 1700000000000 1700000000000
                         (WriteFails (lit "ENOSPC") (Some 4%nat))
                         None None None)
                      (JsString new_config) MIHOMO_CONFIG_FILE_PATH
                      (fresh (sample_storage 1000)))))
     = [(MIHOMO_CONFIG_FILE_PATH, mkFile (utf8_encode old_config) 1000)].
Proof. split; vm_compute; reflexivity. Qed.

Example fetch_rejects_other_scheme :
  fetch_remote Number_decimal
    (fun _ => FetchResolves
                (mkResponse true 200 None (TextResolves new_config)))
    (JsString (lit "ftp://example.com/config.yaml"))
  = inl (mkH3Error 400 (lit "URL must start with http:// or https://") None).
Proof. vm_compute. reflexivity. Qed.

(* ===================================================================== *)
(** * Further properties of the code *)
(* ===================================================================== *)

(** ** The size check counts bytes *)

Lemma byteLength_bounds (s : list Z) :
  Z.of_nat (length s) <= byteLength s <= 3 * Z.of_nat (length s).
Proof.
  induction s as [| u | u v s IHs IHvs] using list_pair_ind.
  - cbn. lia.
  - cbn [byteLength length].
    repeat match goal with
           | |- context [if ?b then _ else _] => destruct b
           end; lia.
  - revert IHvs. cbn [byteLength length].
    repeat match goal with
           | |- context [if ?b then _ else _] => destruct b
           end; lia.
Qed.

(** X1. The limit of [write] is on UTF-8 bytes, between one and three per
    code unit: a string of more than 2 Mi code units is always rejected
    before storage, and a string of at most a third of the limit in code
    units is never rejected for its size, whatever it contains. *)
Theorem size_check_by_code_units
    (env : WriteEnv) (s p : list Z) (w : World) :
  (Z.of_nat (length s) > MAX_MIHOMO_CONFIG_SIZE_BYTES ->
   writeMihomoConfigFile env (JsString s) p w
   = (inl content_too_large_error, w))
  /\ (3 * Z.of_nat (length s) <= MAX_MIHOMO_CONFIG_SIZE_BYTES ->
      forall e,
        fst (writeMihomoConfigFile env (JsString s) p w) = inl e ->
        code e <> CONTENT_TOO_LARGE).
Proof.
  pose proof (byteLength_bounds s) as Hb. split.
  - intros Hlong. rewrite write_string.
    destruct (Z.gtb_spec (byteLength s) MAX_MIHOMO_CONFIG_SIZE_BYTES);
      [reflexivity | lia].
  - intros Hshort e He.
    destruct (write_reaches_storage env s p w ltac:(lia)) as [_ Herr].
    destruct (Herr e He) as [error ->].
    apply mapNodeError_never_validation.
Qed.

Lemma size_check_by_code_units_witness :
  writeMihomoConfigFile (quiet_write 4242 0 0)
    (JsString (repeated 0x4E2D (2 * 1024 * 1024 + 1)))
    MIHOMO_CONFIG_FILE_PATH (fresh (sample_storage 1000))
  = (inl content_too_large_error, fresh (sample_storage 1000)).
Proof.
  apply (proj1 (size_check_by_code_units (quiet_write 4242 0 0)
                  (repeated 0x4E2D (2 * 1024 * 1024 + 1))
                  MIHOMO_CONFIG_FILE_PATH (fresh (sample_storage 1000)))).
  unfold repeated, MAX_MIHOMO_CONFIG_SIZE_BYTES.
  rewrite length_replicate. lia.
Defined.

(** ** What a read returns after a write, for any string *)

Lemma utf8_encode_toWellFormed (s : list Z) :
  utf8_encode (toWellFormed s) = utf8_encode s.
Proof.
  induction s as [| u | u v s IHs IHvs] using list_pair_ind.
  - reflexivity.
  - cbn [toWellFormed utf8_encode].
    destruct (is_high_surrogate u) eqn:Eh.
    + destruct (high_not_small u Eh) as [-> ->]. reflexivity.
    + destruct (is_low_surrogate u) eqn:El.
      * unfold is_low_surrogate in El. bool_to_prop El.
        rewrite (proj2 (Z.ltb_ge u 0x80)), (proj2 (Z.ltb_ge u 0x800)) by lia.
        reflexivity.
      * cbn [utf8_encode]. rewrite Eh, El. reflexivity.
  - revert IHvs. cbn [toWellFormed].
    destruct (is_high_surrogate u) eqn:Eh.
    + destruct (high_not_small u Eh) as [Hs1 Hs2].
      destruct (is_low_surrogate v) eqn:El; intros IHvs.
      * cbn [utf8_encode]. rewrite Hs1, Hs2, Eh, El, IHs. reflexivity.
      * change (utf8_encode (replacement_unit :: ?l))
          with (replacement_bytes ++ utf8_encode l).
        rewrite IHvs. cbn [utf8_encode]. rewrite Hs1, Hs2, Eh, El.
        reflexivity.
    + destruct (is_low_surrogate u) eqn:El; intros IHvs.
      * change (utf8_encode (replacement_unit :: ?l))
          with (replacement_bytes ++ utf8_encode l).
        rewrite IHvs.
        unfold is_low_surrogate in El. bool_to_prop El.
        cbn [utf8_encode].
        rewrite (proj2 (Z.ltb_ge u 0x80)), (proj2 (Z.ltb_ge u 0x800)) by lia.
        rewrite Eh.
        assert (is_low_surrogate u = true) as -> by range_true.
        reflexivity.
      * change (utf8_encode (u :: ?l))
          with (if u <? 0x80 then encode1 u ++ utf8_encode l
                else if u <? 0x800 then encode2 u ++ utf8_encode l
                else if is_high_surrogate u then
                       match l with
                       | lo :: rest' =>
                           if is_low_surrogate lo
                           then encode4 (pair_code_point u lo)
                                  ++ utf8_encode rest'
                           else replacement_bytes ++ utf8_encode l
                       | [] => replacement_bytes
                       end
                else if is_low_surrogate u
                     then replacement_bytes ++ utf8_encode l
                else encode3 u ++ utf8_encode l).
        rewrite Eh, El, IHvs. reflexivity.
Qed.

Lemma well_formed_toWellFormed (s : list Z) :
  Forall (fun u => 0 <= u <= 0xFFFF) s ->
  well_formed (toWellFormed s) = true.
Proof.
  assert (well_formed_replacement :
            forall l, well_formed l = true ->
                      well_formed (replacement_unit :: l) = true)
    by (intros l Hl; cbn; exact Hl).
  assert (well_formed_plain :
            forall u l, 0 <= u <= 0xFFFF ->
                        is_high_surrogate u = false ->
                        is_low_surrogate u = false ->
                        well_formed l = true ->
                        well_formed (u :: l) = true).
  { intros u l Hu Eh El Hl. cbn [well_formed].
    assert (in_range 0 0xFFFF u = true) as -> by range_true.
    cbn [negb]. now rewrite Eh, El, Hl. }
  induction s as [| u | u v s IHs IHvs] using list_pair_ind; intros Hs.
  - reflexivity.
  - apply Forall_inv in Hs. cbn beta in Hs. cbn [toWellFormed].
    destruct (is_high_surrogate u) eqn:Eh; [reflexivity |].
    destruct (is_low_surrogate u) eqn:El; [reflexivity |].
    now apply well_formed_plain.
  - pose proof (Forall_inv Hs) as Hu. cbn beta in Hu.
    apply Forall_inv_tail in Hs.
    specialize (IHvs Hs). specialize (IHs (Forall_inv_tail Hs)).
    revert IHvs. cbn [toWellFormed].
    destruct (is_high_surrogate u) eqn:Eh.
    + destruct (is_low_surrogate v) eqn:El; intros IHvs.
      * cbn [well_formed].
        assert (in_range 0 0xFFFF u = true) as -> by range_true.
        cbn [negb]. now rewrite Eh, El, IHs.
      * now apply well_formed_replacement.
    + destruct (is_low_surrogate u) eqn:El; intros IHvs.
      * now apply well_formed_replacement.
      * now apply well_formed_plain.
Qed.

Lemma toWellFormed_well_formed (s : list Z) :
  well_formed s = true -> toWellFormed s = s.
Proof.
  induction s as [| u | u v s IHs IHvs] using list_pair_ind; intros Hwf.
  - reflexivity.
  - revert Hwf. cbn [well_formed toWellFormed].
    destruct (negb (in_range 0 0xFFFF u)); [discriminate |].
    destruct (is_high_surrogate u); [discriminate |].
    destruct (is_low_surrogate u); [discriminate | reflexivity].
  - revert Hwf IHvs. cbn [well_formed toWellFormed].
    destruct (negb (in_range 0 0xFFFF u)); [discriminate |].
    destruct (is_high_surrogate u).
    + destruct (is_low_surrogate v); [| discriminate].
      cbn [andb]. intros Hwf _. now rewrite IHs.
    + destruct (is_low_surrogate u); [discriminate |].
      cbn [negb andb]. intros Hwf IHvs. now rewrite IHvs.
Qed.

(** X2. Whatever string is written, a read that follows a successful write
    returns it with every unpaired surrogate replaced by U+FFFD, and nothing
    else changed; that result is well formed, so writing it again and
    reading gives it back unchanged. *)
Theorem read_after_write_is_toWellFormed
    (env : WriteEnv) (s p : list Z) (w w' : World) (r : WriteResult) :
  Forall (fun u => 0 <= u <= 0xFFFF) s ->
  writeMihomoConfigFile env (JsString s) p w = (inr r, w') ->
  fst (readMihomoConfigFile quiet_read p w')
  = inr (mkReadResult (toWellFormed s) (write_mtimeMs r))
  /\ (forall renv r' w'',
         readMihomoConfigFile renv p w' = (inr r', w'') ->
         content r' = toWellFormed s)
  /\ well_formed (toWellFormed s) = true
  /\ toWellFormed (toWellFormed s) = toWellFormed s.
Proof.
  intros Hrange Hrun.
  destruct (write_success_target env s p w w' r Hrun) as [-> Htarget].
  pose proof (well_formed_toWellFormed s Hrange) as Hwf.
  assert (utf8_decode (utf8_encode s) = toWellFormed s) as Hback
    by (rewrite <- utf8_encode_toWellFormed; now apply utf8_roundtrip).
  repeat split.
  - rewrite (read_quiet p w' _ Htarget). cbn [fst data mtimeMs].
    now rewrite Hback.
  - intros renv r' w'' Hread.
    destruct (read_result renv p w' w'' r' Hread) as (f & Hf & ->).
    rewrite Htarget in Hf. inversion Hf. exact Hback.
  - exact Hwf.
  - now apply toWellFormed_well_formed.
Qed.

Lemma read_after_write_is_toWellFormed_witness :
  fst (readMihomoConfigFile quiet_read MIHOMO_CONFIG_FILE_PATH
         (snd (writeMihomoConfigFile
                 (quiet_write 4242 1700000000000 1700000000000)
                 (JsString [0x61; 0xDC00; 0xD83D; 0xDE00; 0xD800])
                 MIHOMO_CONFIG_FILE_PATH (fresh (sample_storage 1000)))))
  = inr (mkReadResult [0x61; 0xFFFD; 0xD83D; 0xDE00; 0xFFFD] 1700000000000).
Proof.
  refine (proj1 (read_after_write_is_toWellFormed
                   (quiet_write 4242 1700000000000 1700000000000)
                   [0x61; 0xDC00; 0xD83D; 0xDE00; 0xD800]
                   MIHOMO_CONFIG_FILE_PATH
                   (fresh (sample_storage 1000)) _
                   (mkWriteResult 1700000000000) _ _)).
  - repeat constructor; lia.
  - apply surjective_pairing_write. vm_compute. reflexivity.
Defined.

(** ** What a write leaves alone *)

Lemma write_frame
    (env : WriteEnv) (v : JsValue) (p q : list Z) (w : World) :
  q <> p ->
  q <> tempPath_of env p ->
  files (snd (writeMihomoConfigFile env v p w)) !! q = files w !! q.
Proof.
  intros Hp Htemp.
  destruct (classic_string v) as [[s ->] | Hv];
    [| now rewrite write_not_string].
  rewrite write_string.
  destruct (Z.gtb_spec (byteLength s) MAX_MIHOMO_CONFIG_SIZE_BYTES);
    [reflexivity |].
  pose proof (tempPath_differs env p) as Hne.
  destruct env as [pid0 now0 stamp0 fw fr fs fu].
  set (temp := tempPath_of _ p) in *. clearbody temp.
  run_storage.
  destruct fw as [| c [k |]], fr as [cr |], fs as [cs |], fu as [cu |];
    settle_lookups;
    try (destruct (files w !! temp) eqn:Etemp; settle_lookups);
    reflexivity.
Qed.

(** What a read returns depends on the file at its path only. *)
Lemma read_depends_on_file (renv : ReadEnv) (q : list Z) (w1 w2 : World) :
  files w1 !! q = files w2 !! q ->
  fst (readMihomoConfigFile renv q w1) = fst (readMihomoConfigFile renv q w2).
Proof.
  intros Hq. unfold readMihomoConfigFile. run_storage.
  destruct (readFile_fault renv), (read_stat_fault renv);
    cbn [fst snd files ops]; rewrite ?Hq;
    destruct (files w2 !! q) eqn:Ef;
    repeat (progress (cbn [fst snd files ops]; rewrite ?Hq, ?Ef));
    reflexivity.
Qed.

(** X3. A call of [write] changes nothing but the target and its own
    temporary path: every other path holds after the call exactly what it
    held before, whatever the content and however storage fails, and a read
    of such a path returns after the call what it returned before. *)
Theorem write_touches_only_target_and_temp
    (env : WriteEnv) (v : JsValue) (p q : list Z) (w : World) :
  q <> p ->
  q <> tempPath_of env p ->
  files (snd (writeMihomoConfigFile env v p w)) !! q = files w !! q
  /\ (forall renv,
         fst (readMihomoConfigFile renv q
                (snd (writeMihomoConfigFile env v p w)))
         = fst (readMihomoConfigFile renv q w)).
Proof.
  intros Hp Htemp.
  pose proof (write_frame env v p q w Hp Htemp) as Hframe.
  split; [exact Hframe |].
  intros renv. now apply read_depends_on_file.
Qed.

Lemma write_touches_only_target_and_temp_witness :
  files (snd (writeMihomoConfigFile stat_failing_env (JsString new_config)
                (lit "/opt/mihomo/other.yaml")
                (fresh (sample_storage 1000))))
    !! MIHOMO_CONFIG_FILE_PATH
  = files (fresh (sample_storage 1000)) !! MIHOMO_CONFIG_FILE_PATH.
Proof.
  apply (proj1 (write_touches_only_target_and_temp stat_failing_env
                  (JsString new_config) (lit "/opt/mihomo/other.yaml")
                  MIHOMO_CONFIG_FILE_PATH (fresh (sample_storage 1000))
                  ltac:(vm_compute; discriminate)
                  ltac:(vm_compute; discriminate))).
Defined.

(** X4. The steps of a write are started in order and each only after the
    one before it succeeded: when the write of the temporary file fails,
    even leaving part of the content behind, no rename is started, so a
    partial file is never moved onto the target; the [stat] is started only
    after a rename that went through. *)
Theorem write_steps_in_order
    (env : WriteEnv) (s p : list Z) (fs : gmap (list Z) File) :
  byteLength s <= MAX_MIHOMO_CONFIG_SIZE_BYTES ->
  let temp := tempPath_of env p in
  let bytes := utf8_encode s in
  let out := writeMihomoConfigFile env (JsString s) p (fresh fs) in
  (writeFile_fault env <> WriteGoesThrough ->
   ops (snd out) = [OpWriteFile temp bytes; OpUnlink temp])
  /\ (writeFile_fault env = WriteGoesThrough ->
      rename_fault env <> None ->
      ops (snd out)
      = [OpWriteFile temp bytes; OpRename temp p; OpUnlink temp])
  /\ (writeFile_fault env = WriteGoesThrough ->
      rename_fault env = None ->
      ops (snd out)
      = [OpWriteFile temp bytes; OpRename temp p; OpStat p; OpUnlink temp]).
Proof.
  intros Hle temp bytes out. subst out. rewrite write_string.
  destruct (Z.gtb_spec (byteLength s) MAX_MIHOMO_CONFIG_SIZE_BYTES) as [|_];
    [lia |].
  pose proof (tempPath_differs env p) as Hne. fold temp in Hne |- *.
  destruct env as [pid0 now0 stamp0 fw fr fst0 fu].
  cbn [writeFile_fault rename_fault stat_fault unlink_fault stamp] in *.
  clearbody temp. unfold fresh. run_storage. fold bytes.
  destruct fw as [| c [k |]], fr as [cr |], fst0 as [cs |], fu as [cu |];
    settle_lookups;
    try (destruct (fs !! temp) eqn:Etemp; settle_lookups);
    repeat split; intros; try congruence; reflexivity.
Qed.

Lemma write_steps_in_order_witness :
  ops (snd (writeMihomoConfigFile
              (mkWriteEnv 4242 1700000000000 1700000000000
                 (WriteFails (lit "ENOSPC") (Some 4%nat)) None None None)
              (JsString new_config) MIHOMO_CONFIG_FILE_PATH
              (fresh (sample_storage 1000))))
  = [OpWriteFile (lit "/opt/mihomo/config.yaml.4242.1700000000000.tmp")
       (utf8_encode new_config);
     OpUnlink (lit "/opt/mihomo/config.yaml.4242.1700000000000.tmp")].
Proof.
  refine (proj1 (write_steps_in_order
                   (mkWriteEnv 4242 1700000000000 1700000000000
                      (WriteFails (lit "ENOSPC") (Some 4%nat))
                      None None None)
                   new_config MIHOMO_CONFIG_FILE_PATH (sample_storage 1000)
                   _) _).
  - vm_compute. discriminate.
  - discriminate.
Defined.

(** ** The temporary path *)

Lemma lit_app (a b : string) : lit (a +:+ b) = lit a ++ lit b.
Proof.
  induction a as [| c a IH]; [reflexivity |].
  change (String c a +:+ b) with (String c (a +:+ b)).
  cbn [lit app]. now rewrite IH.
Qed.

Lemma lit_inj (a b : string) : lit a = lit b -> a = b.
Proof.
  revert b. induction a as [| c a IH]; intros [| d b] H; try discriminate H.
  - reflexivity.
  - cbn in H. inversion H as [[Hc Hrest]].
    apply Nat2Z.inj in Hc.
    rewrite <- (ascii_nat_embedding c), <- (ascii_nat_embedding d), Hc.
    f_equal. now apply IH.
Qed.

Lemma pretty_N_go_no_dot (x : N) (s : string) :
  Forall (fun c => c <> 46) (lit s) ->
  Forall (fun c => c <> 46) (lit (pretty_N_go x s)).
Proof.
  revert s. induction (N.lt_wf_0 x) as [x _ IH]; intros s Hs.
  destruct (N.eq_dec x 0%N) as [-> | Hx].
  - now rewrite pretty_N_go_0.
  - rewrite pretty_N_go_step by lia. apply IH.
    + apply N.div_lt; lia.
    + cbn [lit]. constructor; [| exact Hs].
      unfold pretty_N_char. repeat case_match; vm_compute; discriminate.
Qed.

(** The decimal text of an integer holds no dot. *)
Lemma number_text_no_dot (n : Z) : Forall (fun c => c <> 46) (number_text n).
Proof.
  assert (forall x : positive,
             Forall (fun c => c <> 46) (lit (pretty x))) as Hpos.
  { intros x. unfold pretty, pretty_positive, pretty, pretty_N.
    case_decide; [discriminate |]. apply pretty_N_go_no_dot. constructor. }
  unfold number_text. destruct n as [| x | x]; unfold pretty, pretty_Z.
  - repeat constructor. discriminate.
  - apply Hpos.
  - rewrite lit_app. apply Forall_app. split; [| apply Hpos].
    repeat constructor. discriminate.
Qed.

Lemma number_text_inj (m n : Z) : number_text m = number_text n -> m = n.
Proof. intros H%lit_inj. now apply (inj pretty). Qed.

(** Two lists cut at the first occurrence of [x] are cut alike. *)
Lemma cut_at_first (x : Z) (l1 l2 r1 r2 : list Z) :
  Forall (fun c => c <> x) l1 ->
  Forall (fun c => c <> x) l2 ->
  l1 ++ x :: r1 = l2 ++ x :: r2 ->
  l1 = l2 /\ r1 = r2.
Proof.
  revert l2. induction l1 as [| a l1 IH]; intros [| b l2] H1 H2 Heq;
    cbn in Heq.
  - inversion Heq. auto.
  - inversion Heq; subst. apply Forall_inv in H2. congruence.
  - inversion Heq; subst. apply Forall_inv in H1. congruence.
  - inversion Heq; subst.
    destruct (IH l2 (Forall_inv_tail H1) (Forall_inv_tail H2)) as [-> ->];
      auto.
Qed.

Lemma cut_at_last (x : Z) (l1 l2 r1 r2 : list Z) :
  Forall (fun c => c <> x) r1 ->
  Forall (fun c => c <> x) r2 ->
  l1 ++ x :: r1 = l2 ++ x :: r2 ->
  l1 = l2 /\ r1 = r2.
Proof.
  intros H1 H2 Heq. apply (f_equal (@rev Z)) in Heq.
  rewrite !rev_app_distr in Heq. cbn [rev] in Heq.
  rewrite <- !app_assoc in Heq. cbn [app] in Heq.
  apply cut_at_first in Heq as [Hr Hl].
  - apply (f_equal (@rev Z)) in Hr, Hl. rewrite !rev_involutive in Hr, Hl.
    auto.
  - now apply Forall_rev.
  - now apply Forall_rev.
Qed.

(** X5. The temporary path tells the target, the process id and the
    timestamp of the call apart: two calls use the same temporary path
    exactly when they write the same target from the same process in the
    same millisecond. *)
Theorem tempPath_determines_call (env1 env2 : WriteEnv) (p1 p2 : list Z) :
  tempPath_of env1 p1 = tempPath_of env2 p2
  <-> p1 = p2 /\ pid env1 = pid env2 /\ now env1 = now env2.
Proof.
  assert (forall p d1 d2 tail : list Z,
             p ++ lit "." ++ d1 ++ lit "." ++ d2 ++ tail
             = ((p ++ 46 :: d1) ++ 46 :: d2) ++ tail) as Hshape
    by (intros; rewrite <- !app_assoc; reflexivity).
  unfold tempPath_of. split.
  - rewrite !Hshape. intros Heq%app_inv_tail.
    apply cut_at_last in Heq as [Heq Hnow];
      [| apply number_text_no_dot ..].
    apply cut_at_last in Heq as [Hp Hpid];
      [| apply number_text_no_dot ..].
    auto using number_text_inj.
  - intros (-> & -> & ->). reflexivity.
Qed.

(** ** Codes and statuses *)

Lemma mapNodeError_codes (error : JsValue) (action : Action) :
  (code (mapNodeError error action) = NOT_FOUND
   \/ code (mapNodeError error action) = PERMISSION_DENIED
   \/ code (mapNodeError error action) = IO_ERROR)
  /\ statusCode (mapNodeError error action)
     = status_of (code (mapNodeError error action)).
Proof.
  unfold mapNodeError.
  repeat match goal with
         | |- context [if ?b then _ else _] => destruct b
         end; cbn; auto.
Qed.

Lemma read_error_classified (renv : ReadEnv) (p : list Z) (w : World)
    (e : MihomoConfigError) :
  fst (readMihomoConfigFile renv p w) = inl e ->
  exists error, e = mapNodeError error Read.
Proof.
  unfold readMihomoConfigFile, try_catch, throw.
  destruct (bind _ _ w) as [[error | r] w']; cbn [fst]; intros H;
    inversion H. eauto.
Qed.

Lemma write_error_shapes (env : WriteEnv) (v : JsValue) (p : list Z)
    (w : World) (e : MihomoConfigError) :
  fst (writeMihomoConfigFile env v p w) = inl e ->
  e = invalid_content_error
  \/ e = content_too_large_error
  \/ exists error, e = mapNodeError error Write.
Proof.
  destruct (classic_string v) as [[s ->] | Hv].
  - destruct (Z.gtb_spec (byteLength s) MAX_MIHOMO_CONFIG_SIZE_BYTES)
      as [Hbig | Hle].
    + rewrite write_string.
      destruct (Z.gtb_spec (byteLength s) MAX_MIHOMO_CONFIG_SIZE_BYTES);
        [| lia].
      cbn. intros He. inversion He. auto.
    + intros He. right. right.
      exact (proj2 (write_reaches_storage env s p w Hle) e He).
  - rewrite write_not_string by exact Hv. cbn. intros H. inversion H. auto.
Qed.

Lemma get_as_read (env : ReadEnv) (w : World) :
  mihomo_config_get env w
  = match readMihomoConfigFile env MIHOMO_CONFIG_FILE_PATH w with
    | (inr r, w') => (inr r, w')
    | (inl e, w') =>
        (inl (mkH3Error (statusCode e) (message e) (Some (code e))), w')
    end.
Proof.
  unfold mihomo_config_get, propagate, try_catch, throw.
  destruct (readMihomoConfigFile env MIHOMO_CONFIG_FILE_PATH w)
    as [[e | r] w']; reflexivity.
Qed.

Lemma put_as_write (env : WriteEnv) (body : JsValue) (s : list Z)
    (w : World) :
  get_prop body (lit "content") = JsString s ->
  mihomo_config_put env (BodyResolves body) w
  = match writeMihomoConfigFile env (JsString s)
            MIHOMO_CONFIG_FILE_PATH w with
    | (inr r, w') => (inr (mkPutResponse true (write_mtimeMs r)), w')
    | (inl e, w') =>
        (inl (mkH3Error (statusCode e) (message e) (Some (code e))), w')
    end.
Proof.
  intros Hs. unfold mihomo_config_put, readBody. run_storage.
  rewrite Hs. rewrite bool_decide_eq_true_2 by reflexivity.
  destruct body; try discriminate Hs. cbn [falsy orb negb].
  destruct (writeMihomoConfigFile env (JsString s)
              MIHOMO_CONFIG_FILE_PATH w) as [[e | r] w']; reflexivity.
Qed.

Lemma put_not_string (env : WriteEnv) (body : JsValue) (w : World) :
  (forall s, get_prop body (lit "content") <> JsString s) ->
  mihomo_config_put env (BodyResolves body) w
  = (inl (mkH3Error 400 (lit "`content` must be a string")
            (Some INVALID_CONTENT)), w).
Proof.
  intros Hbody. unfold mihomo_config_put, readBody. run_storage.
  rewrite (bool_decide_eq_false_2
             (typeof (get_prop body (lit "content")) = lit "string")).
  - rewrite orb_true_r. reflexivity.
  - intros [s Hs]%typeof_string_iff. exact (Hbody s Hs).
Qed.

(** X6. Every error the module and its two handlers produce carries the
    status of its code (NOT_FOUND 404, PERMISSION_DENIED 403,
    INVALID_CONTENT 400, CONTENT_TOO_LARGE 413, IO_ERROR 500); a read fails
    only with NOT_FOUND, PERMISSION_DENIED or IO_ERROR; a handler error that
    names a code has that code's status. *)
Theorem errors_carry_the_status_of_their_code :
  (forall renv p w e,
      fst (readMihomoConfigFile renv p w) = inl e ->
      statusCode e = status_of (code e)
      /\ (code e = NOT_FOUND \/ code e = PERMISSION_DENIED
          \/ code e = IO_ERROR))
  /\ (forall env v p w e,
         fst (writeMihomoConfigFile env v p w) = inl e ->
         statusCode e = status_of (code e))
  /\ (forall renv w e c,
         fst (mihomo_config_get renv w) = inl e ->
         h3_data e = Some c ->
         h3_statusCode e = status_of c)
  /\ (forall env request w e c,
         fst (mihomo_config_put env request w) = inl e ->
         h3_data e = Some c ->
         h3_statusCode e = status_of c).
Proof.
  assert (forall env v p w e,
             fst (writeMihomoConfigFile env v p w) = inl e ->
             statusCode e = status_of (code e)) as Hwrite.
  { intros env v p w e He.
    destruct (write_error_shapes env v p w e He) as [-> | [-> | [err ->]]];
      [reflexivity | reflexivity | apply mapNodeError_codes]. }
  assert (forall renv p w e,
             fst (readMihomoConfigFile renv p w) = inl e ->
             statusCode e = status_of (code e)
             /\ (code e = NOT_FOUND \/ code e = PERMISSION_DENIED
                 \/ code e = IO_ERROR)) as Hread.
  { intros renv p w e He.
    destruct (read_error_classified renv p w e He) as [err ->].
    destruct (mapNodeError_codes err Read). auto. }
  repeat split.
  - now apply (Hread renv p w e).
  - now apply (Hread renv p w e).
  - exact Hwrite.
  - intros renv w e c. rewrite get_as_read.
    destruct (readMihomoConfigFile renv MIHOMO_CONFIG_FILE_PATH w)
      as [[e0 | r] w'] eqn:Erun; cbn [fst]; intros He Hc;
      inversion He; subst e. cbn in Hc |- *. inversion Hc; subst c.
    apply (Hread renv MIHOMO_CONFIG_FILE_PATH w e0). now rewrite Erun.
  - intros env request w e c.
    destruct request as [| body].
    + cbn. intros He Hc. inversion He; subst e. discriminate Hc.
    + destruct (classic_string (get_prop body (lit "content")))
        as [[s Hs] | Hbody].
      * rewrite (put_as_write env body s w Hs).
        destruct (writeMihomoConfigFile env (JsString s)
                    MIHOMO_CONFIG_FILE_PATH w) as [[e0 | r] w'] eqn:Erun;
          cbn [fst]; intros He Hc; inversion He; subst e.
        cbn in Hc |- *. inversion Hc; subst c.
        apply (Hwrite env (JsString s) MIHOMO_CONFIG_FILE_PATH w e0).
        now rewrite Erun.
      * rewrite (put_not_string env body w Hbody). cbn [fst].
        intros He Hc. inversion He; subst e. cbn in Hc |- *.
        inversion Hc. reflexivity.
Qed.

Lemma errors_carry_the_status_of_their_code_witness :
  statusCode (mapNodeError (errno (lit "EACCES")) Write) = 403.
Proof.
  refine (proj1 (proj2 errors_carry_the_status_of_their_code)
            (mkWriteEnv 4242 0 0 (WriteFails (lit "EACCES") None)
               None None None)
            (JsString new_config) MIHOMO_CONFIG_FILE_PATH
            (fresh (sample_storage 1000)) _ _).
  vm_compute. reflexivity.
Defined.

(** ** The handlers *)

(** X7. The GET handler changes no file and answers what the read of the
    default path gives: the read's result as it is, or, for the error the
    read threw, an error with that error's status, message and code. So the
    code storage rejected with first decides the answer ([ENOENT] 404,
    [EACCES] and [EPERM] 403, any other code 500), an answer without failure
    is the decoded content and modification time of the file, and an error
    always names one of NOT_FOUND, PERMISSION_DENIED and IO_ERROR (never the
    generic 500 without code). *)
Theorem get_handler_mirrors_read (renv : ReadEnv) (w : World) :
  let read := readMihomoConfigFile renv MIHOMO_CONFIG_FILE_PATH w in
  let out := mihomo_config_get renv w in
  snd out = snd read
  /\ files (snd out) = files w
  /\ (forall r, fst read = inr r -> fst out = inr r)
  /\ (forall e,
         fst read = inl e ->
         fst out
         = inl (mkH3Error (statusCode e) (message e) (Some (code e))))
  /\ (forall c,
         first_rejection renv (files w !! MIHOMO_CONFIG_FILE_PATH) = Some c ->
         fst out
         = inl (mkH3Error (statusCode (mapNodeError (errno c) Read))
                  (message (mapNodeError (errno c) Read))
                  (Some (code (mapNodeError (errno c) Read))))
         /\ (c = lit "ENOENT" ->
             fst out
             = inl (mkH3Error 404 (lit "Mihomo config file not found")
                      (Some NOT_FOUND)))
         /\ (c = lit "EACCES" \/ c = lit "EPERM" ->
             h3_statusCode_of (fst out) = Some 403
             /\ h3_code_of (fst out) = Some PERMISSION_DENIED)
         /\ (c <> lit "ENOENT" -> c <> lit "EACCES" -> c <> lit "EPERM" ->
             h3_statusCode_of (fst out) = Some 500
             /\ h3_code_of (fst out) = Some IO_ERROR))
  /\ (first_rejection renv (files w !! MIHOMO_CONFIG_FILE_PATH) = None ->
      exists f,
        files w !! MIHOMO_CONFIG_FILE_PATH = Some f
        /\ fst out
           = inr (mkReadResult (utf8_decode (data f)) (mtimeMs f)))
  /\ (forall e,
         fst out = inl e ->
         h3_data e = Some NOT_FOUND
         \/ h3_data e = Some PERMISSION_DENIED
         \/ h3_data e = Some IO_ERROR).
Proof.
  intros read out. subst read out. rewrite get_as_read.
  pose proof (read_files_unchanged renv MIHOMO_CONFIG_FILE_PATH w) as Hfiles.
  pose proof (read_error_classified renv MIHOMO_CONFIG_FILE_PATH w) as Herr.
  pose proof (read_outcome renv MIHOMO_CONFIG_FILE_PATH w) as Hout.
  destruct (readMihomoConfigFile renv MIHOMO_CONFIG_FILE_PATH w)
    as [[e0 | r0] w']; cbn [fst snd] in *;
    (split; [reflexivity |]); (split; [exact Hfiles |]).
  - split; [discriminate |].
    split; [intros e He; inversion He; reflexivity |].
    split; [| split].
    + intros c Hc. rewrite Hc in Hout. inversion Hout; subst e0.
      split; [reflexivity |].
      destruct (mapNodeError_errno c Read) as (H404 & H403 & H500).
      split; [| split].
      * intros Hcode. now rewrite (H404 Hcode).
      * intros Hcode. destruct (H403 Hcode) as [Hc1 Hs1].
        cbn. now rewrite Hc1, Hs1.
      * intros H1 H2 H3. destruct (H500 H1 H2 H3) as [Hc1 Hs1].
        cbn. now rewrite Hc1, Hs1.
    + intros Hnone. rewrite Hnone in Hout. exfalso.
      destruct (files w !! MIHOMO_CONFIG_FILE_PATH) as [f |] eqn:Ef;
        [discriminate Hout |].
      unfold first_rejection, reported in Hnone.
      destruct (readFile_fault renv), (read_stat_fault renv);
        discriminate Hnone.
    + intros e He. inversion He; subst e. cbn [h3_data].
      destruct (Herr e0 eq_refl) as [error ->].
      destruct (proj1 (mapNodeError_codes error Read)) as [-> | [-> | ->]];
        auto.
  - split; [intros r Hr; inversion Hr; reflexivity |].
    split; [discriminate |].
    split; [| split].
    + intros c Hc. rewrite Hc in Hout. discriminate Hout.
    + intros Hnone. rewrite Hnone in Hout.
      destruct (files w !! MIHOMO_CONFIG_FILE_PATH) as [f |] eqn:Ef;
        [| discriminate Hout].
      exists f. split; [reflexivity |]. now inversion Hout.
    + discriminate.
Qed.

Lemma get_handler_mirrors_read_witness :
  fst (mihomo_config_get (mkReadEnv (Some (lit "EACCES")) None false)
         (fresh (sample_storage 1000)))
  = inl (mkH3Error 403
           (lit "Permission denied while trying to read Mihomo config file")
           (Some PERMISSION_DENIED)).
Proof.
  refine (proj1 (proj1 (proj2 (proj2 (proj2 (proj2
            (get_handler_mirrors_read
               (mkReadEnv (Some (lit "EACCES")) None false)
               (fresh (sample_storage 1000)))))))
            (lit "EACCES") _)).
  vm_compute. reflexivity.
Defined.

(** X8. The PUT handler answers [ok: true] only after a body whose
    [content] is a string has been stored whole at the default path, and
    then returns that file's modification time. A body that cannot be read
    gives the generic 500 with the world untouched. Whatever happens, paths
    other than the default path and its temporary path are left alone. *)
Theorem put_handler_outcomes
    (env : WriteEnv) (request : BodyOutcome) (w : World) :
  let out := mihomo_config_put env request w in
  (forall response,
      fst out = inr response ->
      ok response = true
      /\ exists body s,
           request = BodyResolves body
           /\ get_prop body (lit "content") = JsString s
           /\ files (snd out) !! MIHOMO_CONFIG_FILE_PATH
              = Some (mkFile (utf8_encode s) (put_mtimeMs response)))
  /\ (request = BodyRejects ->
      out = (inl (mkH3Error 500
                    (lit "Unexpected error while writing Mihomo config file")
                    None), w))
  /\ (forall q,
         q <> MIHOMO_CONFIG_FILE_PATH ->
         q <> tempPath_of env MIHOMO_CONFIG_FILE_PATH ->
         files (snd out) !! q = files w !! q).
Proof.
  intros out. subst out. destruct request as [| body].
  - repeat split; try discriminate; reflexivity.
  - destruct (classic_string (get_prop body (lit "content")))
      as [[s Hs] | Hbody].
    + rewrite (put_as_write env body s w Hs).
      pose proof (fun q => write_frame env (JsString s)
                             MIHOMO_CONFIG_FILE_PATH q w) as Hframe.
      pose proof (write_success_target env s MIHOMO_CONFIG_FILE_PATH w)
        as Hok.
      destruct (writeMihomoConfigFile env (JsString s)
                  MIHOMO_CONFIG_FILE_PATH w) as [[e0 | r] w'];
        cbn [fst snd] in *; (split; [| split; [discriminate | exact Hframe]]).
      * discriminate.
      * intros response Hresp. inversion Hresp; subst response.
        split; [reflexivity |]. exists body, s.
        destruct (Hok w' r eq_refl) as [-> Htarget]. auto.
    + rewrite (put_not_string env body w Hbody).
      repeat split; try discriminate; reflexivity.
Qed.

Lemma put_handler_outcomes_witness :
  files (snd (mihomo_config_put
                (quiet_write 4242 1700000000000 1700000000000)
                (BodyResolves (body_with_content (JsString new_config)))
                (fresh (sample_storage 1000))))
    !! MIHOMO_CONFIG_FILE_PATH
  = Some (mkFile (utf8_encode new_config) 1700000000000).
Proof.
  destruct (proj1 (put_handler_outcomes
                     (quiet_write 4242 1700000000000 1700000000000)
                     (BodyResolves (body_with_content (JsString new_config)))
                     (fresh (sample_storage 1000)))
              (mkPutResponse true 1700000000000))
    as [_ (body & s & Hreq & Hs & Htarget)].
  - vm_compute. reflexivity.
  - inversion Hreq; subst body. vm_compute in Hs. inversion Hs; subst s.
    exact Htarget.
Defined.

(** X9. What the PUT handler stored is what the GET handler returns: after
    a successful PUT of a string, a GET gives the string with unpaired
    surrogates replaced by U+FFFD (the string itself when it is well formed)
    together with the modification time the PUT answered. *)
Theorem put_then_get
    (env : WriteEnv) (body : JsValue) (s : list Z) (w w' : World)
    (response : PutResponse) :
  Forall (fun u => 0 <= u <= 0xFFFF) s ->
  get_prop body (lit "content") = JsString s ->
  mihomo_config_put env (BodyResolves body) w = (inr response, w') ->
  fst (mihomo_config_get quiet_read w')
  = inr (mkReadResult (toWellFormed s) (put_mtimeMs response))
  /\ (well_formed s = true ->
      fst (mihomo_config_get quiet_read w')
      = inr (mkReadResult s (put_mtimeMs response))).
Proof.
  intros Hrange Hs Hput. rewrite (put_as_write env body s w Hs) in Hput.
  destruct (writeMihomoConfigFile env (JsString s)
              MIHOMO_CONFIG_FILE_PATH w) as [[e0 | r] w0] eqn:Erun;
    inversion Hput; subst w0 response.
  destruct (write_success_target env s _ w w' r Erun) as [-> Htarget].
  assert (fst (mihomo_config_get quiet_read w')
          = inr (mkReadResult (toWellFormed s) (stamp env))) as Hget.
  { rewrite get_as_read, (read_quiet _ w' _ Htarget).
    cbn [fst data mtimeMs].
    rewrite <- utf8_encode_toWellFormed, utf8_roundtrip;
      [reflexivity | now apply well_formed_toWellFormed]. }
  split; [exact Hget |].
  intros Hwf. now rewrite <- (toWellFormed_well_formed s Hwf) at 1.
Qed.

Lemma put_then_get_witness :
  fst (mihomo_config_get quiet_read
         (snd (mihomo_config_put
                 (quiet_write 4242 1700000000000 1700000000000)
                 (BodyResolves (body_with_content (JsString new_config)))
                 (fresh (sample_storage 1000)))))
  = inr (mkReadResult new_config 1700000000000).
Proof.
  refine (proj2 (put_then_get
                   (quiet_write 4242 1700000000000 1700000000000)
                   (body_with_content (JsString new_config)) new_config
                   (fresh (sample_storage 1000)) _
                   (mkPutResponse true 1700000000000) _ _ _) _).
  - apply List.Forall_forall. intros u Hu. vm_compute in Hu.
    repeat destruct Hu as [<- | Hu]; lia || contradiction.
  - reflexivity.
  - apply surjective_pairing_write. vm_compute. reflexivity.
  - vm_compute. reflexivity.
Defined.

(** ** The remote fetch handler beyond the size limit *)



Lemma fetch_remote_cases
    (Number : list Z -> number) (fetch : list Z -> FetchOutcome)
    (url : JsValue) (content : list Z) :
  fetch_remote Number fetch url = inr content ->
  exists s, url = JsString s
            /\ fetch_try Number (fetch s) = inr content.
Proof.
  unfold fetch_remote.
  destruct (falsy url || _); [discriminate |].
  destruct url as [| | | | s |]; try discriminate.
  destruct (negb _ && negb _); [discriminate |].
  destruct (fetch_try Number (fetch s)) as [error | c] eqn:Etry;
    intros H; inversion H; subst.
  exists s. split; [reflexivity | exact Etry].
Qed.

(** X11. Whatever the handler returns is within the limit: a returned
    content is the text of an [ok] response to the requested URL and takes
    at most 2 MiB of UTF-8, so [write] never rejects it for its size. *)
Theorem fetched_content_fits
    (Number : list Z -> number) (fetch : list Z -> FetchOutcome)
    (url : JsValue) (content : list Z) :
  fetch_remote Number fetch url = inr content ->
  byteLength content <= MAX_MIHOMO_CONFIG_SIZE_BYTES
  /\ (exists s response,
         url = JsString s
         /\ fetch s = FetchResolves response
         /\ resp_ok response = true
         /\ resp_text response = TextResolves content)
  /\ (forall env p w e,
         fst (writeMihomoConfigFile env (JsString content) p w) = inl e ->
         code e <> CONTENT_TOO_LARGE).
Proof.
  intros (s & -> & Htry)%fetch_remote_cases.
  unfold fetch_try in Htry.
  destruct (fetch s) as [msg | response] eqn:Efetch; [discriminate |].
  destruct (resp_ok response) eqn:Eok; [| discriminate]. cbn [negb] in Htry.
  destruct (match resp_content_length response with
            | Some cl => _
            | None => false
            end); [discriminate |].
  destruct (resp_text response) as [msg | body] eqn:Etext; [discriminate |].
  rewrite <- byteLength_utf8_encode in Htry.
  destruct (Z.gtb_spec (byteLength body) MAX_MIHOMO_CONFIG_SIZE_BYTES)
    as [| Hle]; [discriminate |].
  inversion Htry; subst body.
  split; [exact Hle |]. split; [eauto 10 |].
  intros env p w e He.
  destruct (proj2 (write_reaches_storage env content p w Hle) e He)
    as [error ->].
  apply mapNodeError_never_validation.
Qed.

Lemma fetched_content_fits_witness :
  byteLength new_config <= MAX_MIHOMO_CONFIG_SIZE_BYTES.
Proof.
  refine (proj1 (fetched_content_fits Number_decimal
                   (fun _ => FetchResolves
                               (mkResponse true 200 (Some (lit "11"))
                                  (TextResolves new_config)))
                   (JsString (lit "https://example.com/config.yaml"))
                   new_config _)).
  vm_compute. reflexivity.
Defined.

(** X12. Failures upstream of the size checks, for an accepted URL. A
    response that is not [ok] is answered with the remote status when that
    is from 100 to 999 and with 500 otherwise, the message naming the remote
    status as received. A request that fails is answered with 502 and a
    message that ends with the failure's message, and so is a body that
    cannot be read, with or without a [content-length] header, as long as
    the header does not exceed the limit. *)
Theorem fetch_upstream_failures
    (Number : list Z -> number) (fetch : list Z -> FetchOutcome)
    (url : list Z) :
  startsWith url (lit "http://") || startsWith url (lit "https://") = true ->
  let result := fetch_remote Number fetch (JsString url) in
  (forall message,
      fetch url = FetchRejects message ->
      result
      = inl (mkH3Error 502
               (lit "Failed to fetch from remote URL: " ++ message) None))
  /\ (forall response,
         fetch url = FetchResolves response ->
         resp_ok response = false ->
         result
         = inl (mkH3Error
                  (if (100 <=? resp_status response)
                      && (resp_status response <=? 999)
                   then resp_status response else 500)
                  (lit "Remote server responded with "
                   ++ number_text (resp_status response)) None))
  /\ (forall response message,
         fetch url = FetchResolves response ->
         resp_ok response = true ->
         (forall cl,
             resp_content_length response = Some cl ->
             cl <> [] ->
             number_gt (Number cl) MAX_MIHOMO_CONFIG_SIZE_BYTES = false) ->
         resp_text response = TextRejects message ->
         result
         = inl (mkH3Error 502
                  (lit "Failed to fetch from remote URL: " ++ message)
                  None)).
Proof.
  intros Hurl result. subst result.
  rewrite (fetch_remote_accepted_url Number fetch url Hurl).
  unfold fetch_try, fetch_catch. split; [| split].
  - intros message ->. reflexivity.
  - intros response -> Hok. rewrite Hok. cbn [negb h3_statusCode].
    unfold sanitizeStatusCode.
    destruct ((100 <=? resp_status response)
              && (resp_status response <=? 999)) eqn:Erange.
    + apply andb_true_iff in Erange as [Hlo _]. apply Z.leb_le in Hlo.
      rewrite (proj2 (Z.eqb_neq (resp_status response) 0)) by lia.
      reflexivity.
    + reflexivity.
  - intros response message -> Hok Hheader Htext.
    rewrite Hok, Htext. cbn [negb].
    destruct (resp_content_length response) as [cl |]; [| reflexivity].
    destruct (decide (cl = [])) as [-> | Hne]; [reflexivity |].
    rewrite (Hheader cl eq_refl Hne), andb_false_r. reflexivity.
Qed.

Lemma fetch_upstream_failures_witness :
  fetch_remote Number_decimal
    (fun _ => FetchResolves
                (mkResponse false 404 None (TextResolves [])))
    (JsString (lit "http://example.com/missing.yaml"))
  = inl (mkH3Error 404 (lit "Remote server responded with 404") None)
  /\ fetch_remote Number_decimal
       (fun _ => FetchResolves
                   (mkResponse true 200 (Some (lit "11"))
                      (TextRejects (lit "terminated"))))
       (JsString (lit "https://example.com/config.yaml"))
     = inl (mkH3Error 502
              (lit "Failed to fetch from remote URL: terminated") None).
Proof.
  split.
  - refine (proj1 (proj2 (fetch_upstream_failures Number_decimal
                            (fun _ => FetchResolves
                                        (mkResponse false 404 None
                                           (TextResolves [])))
                            (lit "http://example.com/missing.yaml") _))
              (mkResponse false 404 None (TextResolves [])) _ _);
      reflexivity.
  - refine (proj2 (proj2 (fetch_upstream_failures Number_decimal
                            (fun _ => FetchResolves
                                        (mkResponse true 200
                                           (Some (lit "11"))
                                           (TextRejects (lit "terminated"))))
                            (lit "https://example.com/config.yaml") _))
              (mkResponse true 200 (Some (lit "11"))
                 (TextRejects (lit "terminated")))
              (lit "terminated") _ _ _ _);
      try reflexivity.
    intros cl Hcl _. inversion Hcl; subst cl. reflexivity.
Defined.

(** A remote status of 0 is answered with 500. *)
Example fetch_status_zero :
  fetch_remote Number_decimal
    (fun _ => FetchResolves (mkResponse false 0 None (TextResolves [])))
    (JsString (lit "http://example.com/config.yaml"))
  = inl (mkH3Error 500 (lit "Remote server responded with 0") None).
Proof. vm_compute. reflexivity. Qed.

(** ** The YAML editor of the rules page *)

Lemma js_or_truthy_right (a b : JsValue) :
  falsy b = false -> falsy (js_or a b) = false.
Proof. unfold js_or. destruct (falsy a) eqn:E; auto. Qed.

(** X13. The message shown for a failed request is the first non-empty one
    of the server's [data.statusMessage], the error's [statusMessage] and
    its [message], and the fallback when none is there (also for [null] and
    [undefined]); with a non-empty fallback it is never empty. *)
Theorem parseRequestErrorMessage_priority
    (error : JsValue) (fallback : list Z) :
  let from_data :=
    get_prop_opt (get_prop_opt error (lit "data")) (lit "statusMessage") in
  let from_status := get_prop_opt error (lit "statusMessage") in
  let from_message := get_prop_opt error (lit "message") in
  let shown := parseRequestErrorMessage error fallback in
  (falsy from_data = false -> shown = from_data)
  /\ (falsy from_data = true -> falsy from_status = false ->
      shown = from_status)
  /\ (falsy from_data = true -> falsy from_status = true ->
      falsy from_message = false -> shown = from_message)
  /\ (falsy from_data = true -> falsy from_status = true ->
      falsy from_message = true -> shown = JsString fallback)
  /\ (error = JsUndefined \/ error = JsNull -> shown = JsString fallback)
  /\ (fallback <> [] -> falsy shown = false).
Proof.
  intros from_data from_status from_message shown.
  subst shown. unfold parseRequestErrorMessage.
  fold from_data. fold from_status. fold from_message. unfold js_or.
  split; [| split; [| split; [| split; [| split]]]].
  - intros H1. now rewrite !H1.
  - intros H1 H2. now rewrite H1, !H2.
  - intros H1 H2 H3. now rewrite H1, H2, H3.
  - intros H1 H2 H3. now rewrite H1, H2, H3.
  - subst from_data from_status from_message.
    intros [-> | ->]; reflexivity.
  - intros Hne.
    assert (falsy (JsString fallback) = false) as Hfb
      by (cbn; now apply bool_decide_eq_false_2).
    destruct (falsy from_data) eqn:E1; [| now rewrite !E1].
    destruct (falsy from_status) eqn:E2; [| now rewrite !E2].
    destruct (falsy from_message) eqn:E3; [exact Hfb | exact E3].
Qed.

Lemma parseRequestErrorMessage_priority_witness :
  parseRequestErrorMessage
    (JsObject [(lit "message", JsString (lit "fetch failed"));
               (lit "data",
                JsObject [(lit "statusMessage",
                           JsString (lit "Mihomo config file not found"))])])
    (lit "Failed to load")
  = JsString (lit "Mihomo config file not found").
Proof.
  apply (proj1 (parseRequestErrorMessage_priority
                  (JsObject
                     [(lit "message", JsString (lit "fetch failed"));
                      (lit "data",
                       JsObject
                         [(lit "statusMessage",
                           JsString (lit "Mihomo config file not found"))])])
                  (lit "Failed to load"))).
  reflexivity.
Defined.

Ltac editor_simpl :=
  cbn [fst snd set_saving set_status set_loading yamlContent
       originalYamlContent yamlMtimeMs yamlLoading yamlSaving yamlStatus].

Lemma isYamlDirty_same (c : list Z) (m : option Z) (l s : bool)
    (st : option YamlStatus) :
  isYamlDirty (mkEditor c c m l s st) = false.
Proof. unfold isYamlDirty. cbn. now rewrite bool_decide_eq_true_2. Qed.


(** X14. Loading sends one GET and always ends with the loading flag down.
    When it succeeds the editor shows the server's content with no unsaved
    change, any text typed before being replaced; when it fails the text,
    the saved copy and the time are kept and an error status is shown. *)
Theorem load_outcomes
    (t : string -> list Z) (response : JsValue + ReadResult) (e : Editor) :
  let out := loadMihomoConfigFile t response e in
  snd out = [GetMihomoConfig]
  /\ yamlLoading (fst out) = false
  /\ yamlSaving (fst out) = yamlSaving e
  /\ (forall result,
         response = inr result ->
         fst out
         = mkEditor (content result) (content result)
             (Some (read_mtimeMs result)) false (yamlSaving e) None
         /\ isYamlDirty (fst out) = false)
  /\ (forall error,
         response = inl error ->
         fst out
         = mkEditor (yamlContent e) (originalYamlContent e) (yamlMtimeMs e)
             false (yamlSaving e)
             (Some (mkYamlStatus StatusError
                      (parseRequestErrorMessage error
                         (t "yamlEditorLoadFailed"))))).
Proof.
  intros out. subst out. unfold loadMihomoConfigFile.
  destruct response as [error | result]; editor_simpl;
    (split; [reflexivity |]); (split; [reflexivity |]);
    (split; [reflexivity |]); split; try discriminate.
  - intros error0 H. inversion H. reflexivity.
  - intros result0 H. inversion H. split; [reflexivity |].
    apply isYamlDirty_same.
Qed.

Lemma load_outcomes_witness :
  fst (loadMihomoConfigFile t_en (inr (mkReadResult old_config 1000))
         (mkEditor new_config [] None false false None))
  = mkEditor old_config old_config (Some 1000) false false None.
Proof.
  apply (proj1 (proj2 (proj2 (proj2 (load_outcomes t_en
                                       (inr (mkReadResult old_config 1000))
                                       (mkEditor new_config [] None false
                                          false None)))))
           (mkReadResult old_config 1000)).
  reflexivity.
Defined.


(** X15. Saving sends nothing and changes nothing when there is no unsaved
    change. Otherwise it sends the PUT with the editor's text, and the
    reload request only after a PUT that succeeded; it never alters the
    text, and it ends with the saving flag down on every path. *)
Theorem save_requests
    (t : string -> list Z) (put : list Z -> JsValue + PutResponse)
    (reload : JsValue + unit) (e : Editor) :
  let out := saveMihomoConfigAndReload t put reload e in
  (isYamlDirty e = false -> out = (e, []))
  /\ (isYamlDirty e = true ->
      yamlSaving (fst out) = false
      /\ snd out
         = match put (yamlContent e) with
           | inl _ => [PutMihomoConfig (yamlContent e)]
           | inr _ => [PutMihomoConfig (yamlContent e); PutConfigsReload]
           end)
  /\ yamlContent (fst out) = yamlContent e
  /\ yamlLoading (fst out) = yamlLoading e.
Proof.
  intros out. subst out. unfold saveMihomoConfigAndReload.
  destruct (isYamlDirty e) eqn:Edirty; cbn [negb].
  - split; [discriminate |]. cbn.
    destruct (put (yamlContent e)) as [error | r]; cbn;
      [| destruct reload]; repeat split; reflexivity.
  - repeat split; discriminate.
Qed.

Lemma save_requests_witness :
  saveMihomoConfigAndReload t_en (fun _ => inr (mkPutResponse true 2000))
    (inr tt) (mkEditor old_config old_config (Some 1000) false false None)
  = (mkEditor old_config old_config (Some 1000) false false None, []).
Proof.
  apply (proj1 (save_requests t_en (fun _ => inr (mkPutResponse true 2000))
                  (inr tt)
                  (mkEditor old_config old_config (Some 1000) false false
                     None))).
  reflexivity.
Defined.

(** X16. When the PUT fails the editor keeps its unsaved change, its saved
    copy and its time, and shows an error. When the PUT succeeds the text
    becomes the saved copy (no unsaved change is left) with the time the
    server answered, whether or not the reload then succeeds: a failed
    reload only turns the status into a warning. *)
Theorem save_outcomes
    (t : string -> list Z) (put : list Z -> JsValue + PutResponse)
    (reload : JsValue + unit) (e : Editor) :
  isYamlDirty e = true ->
  let out := saveMihomoConfigAndReload t put reload e in
  (forall error,
      put (yamlContent e) = inl error ->
      fst out
      = mkEditor (yamlContent e) (originalYamlContent e) (yamlMtimeMs e)
          (yamlLoading e) false
          (Some (mkYamlStatus StatusError
                   (parseRequestErrorMessage error
                      (t "yamlEditorSaveFailed"))))
      /\ isYamlDirty (fst out) = true)
  /\ (forall saveResult,
         put (yamlContent e) = inr saveResult ->
         fst out
         = mkEditor (yamlContent e) (yamlContent e)
             (Some (put_mtimeMs saveResult)) (yamlLoading e) false
             (Some match reload with
                   | inr _ =>
                       mkYamlStatus StatusSuccess
                         (JsString (t "yamlEditorSaveAndReloadSuccess"))
                   | inl error =>
                       mkYamlStatus StatusWarning
                         (parseRequestErrorMessage error
                            (t "yamlEditorSavedButReloadFailed"))
                   end)
         /\ isYamlDirty (fst out) = false).
Proof.
  intros Hdirty out. subst out. unfold saveMihomoConfigAndReload.
  rewrite Hdirty. cbn [negb]. editor_simpl.
  split.
  - intros error ->. editor_simpl. split; [reflexivity |]. exact Hdirty.
  - intros saveResult ->. destruct reload as [error | []]; editor_simpl;
      (split; [reflexivity |]); apply isYamlDirty_same.
Qed.

Lemma save_outcomes_witness :
  fst (saveMihomoConfigAndReload t_en
         (fun _ => inr (mkPutResponse true 2000))
         (inl (JsObject [(lit "message", JsString (lit "timeout"))]))
         (mkEditor new_config old_config (Some 1000) false false None))
  = mkEditor new_config new_config (Some 2000) false false
      (Some (mkYamlStatus StatusWarning (JsString (lit "timeout")))).
Proof.
  refine (proj1 (proj2 (save_outcomes t_en
                          (fun _ => inr (mkPutResponse true 2000))
                          (inl (JsObject [(lit "message",
                                           JsString (lit "timeout"))]))
                          (mkEditor new_config old_config (Some 1000) false
                             false None) _)
                   (mkPutResponse true 2000) _)).
  - vm_compute. reflexivity.
  - reflexivity.
Defined.


(** X18. The byte count the editor shows is the UTF-8 length the server
    checks: a text counted above 2 MiB is rejected by [write] before
    storage, and a text counted at or below it is never rejected for its
    size. *)
Theorem yamlBytes_is_the_checked_size (e : Editor) :
  yamlBytes e = byteLength (yamlContent e)
  /\ (yamlBytes e > MAX_MIHOMO_CONFIG_SIZE_BYTES ->
      forall env p w,
        writeMihomoConfigFile env (JsString (yamlContent e)) p w
        = (inl content_too_large_error, w))
  /\ (yamlBytes e <= MAX_MIHOMO_CONFIG_SIZE_BYTES ->
      forall env p w err,
        fst (writeMihomoConfigFile env (JsString (yamlContent e)) p w)
        = inl err ->
        code err <> CONTENT_TOO_LARGE).
Proof.
  assert (yamlBytes e = byteLength (yamlContent e)) as Hbytes
    by (unfold yamlBytes; now rewrite byteLength_utf8_encode).
  rewrite Hbytes. split; [reflexivity |]. split.
  - intros Hbig env p w. rewrite write_string.
    destruct (Z.gtb_spec (byteLength (yamlContent e))
                MAX_MIHOMO_CONFIG_SIZE_BYTES); [reflexivity | lia].
  - intros Hle env p w err Herr.
    destruct (proj2 (write_reaches_storage env (yamlContent e) p w Hle)
                err Herr) as [error ->].
    apply mapNodeError_never_validation.
Qed.

(** ** The scenarios of the module's tests *)

(** X19. The assertions of the tests hold for any contents and path: after
    a file is created with a well-formed content, [read] returns that
    content and the file's modification time; after a [write] of a
    well-formed content within the limit, with storage not failing,
    [readFile] gives the new content and [stat] the time of the write, the
    earlier [stat] having given the time of the creation. *)
Theorem test_scenarios
    (pid now created written : Z) (path before after : list Z) (w : World) :
  well_formed before = true ->
  well_formed after = true ->
  byteLength after <= MAX_MIHOMO_CONFIG_SIZE_BYTES ->
  let w1 := snd (writeFile WriteGoesThrough created path before w) in
  let w2 := snd (writeMihomoConfigFile (quiet_write pid now written)
                   (JsString after) path w1) in
  fst (readMihomoConfigFile quiet_read path w1)
  = inr (mkReadResult before created)
  /\ fst (stat None path w1) = inr created
  /\ fst (readFile None path w2) = inr after
  /\ fst (stat None path w2) = inr written.
Proof.
  intros Hbefore Hafter Hle w1 w2.
  assert (files w1 !! path = Some (mkFile (utf8_encode before) created))
    as Hw1.
  { subst w1. unfold writeFile. run_storage. apply lookup_insert_eq. }
  assert (files w2 !! path = Some (mkFile (utf8_encode after) written))
    as Hw2.
  { destruct (write_outcomes (quiet_write pid now written) after path w1 Hle)
      as [_ [(Ht & _) | (_ & [error Herr] & Hops)]].
    - exact Ht.
    - exfalso. revert Herr. rewrite write_string.
      destruct (Z.gtb_spec (byteLength after) MAX_MIHOMO_CONFIG_SIZE_BYTES);
        [lia |].
      rewrite try_finally_catch_noop. cbn [fst]. unfold quiet_write.
      run_storage. settle_lookups. discriminate. }
  split; [| split; [| split]].
  - rewrite (read_quiet path w1 _ Hw1). cbn [fst data mtimeMs].
    now rewrite utf8_roundtrip.
  - unfold stat. run_storage. now rewrite Hw1.
  - unfold readFile. run_storage. rewrite Hw2. cbn [fst data].
    now rewrite utf8_roundtrip.
  - unfold stat. run_storage. now rewrite Hw2.
Qed.

Lemma test_scenarios_witness :
  fst (readFile None MIHOMO_CONFIG_FILE_PATH
         (snd (writeMihomoConfigFile
                 (quiet_write 4242 1700000000000 1700000000000)
                 (JsString new_config) MIHOMO_CONFIG_FILE_PATH
                 (snd (writeFile WriteGoesThrough 1000
                         MIHOMO_CONFIG_FILE_PATH old_config (fresh ∅))))))
  = inr new_config.
Proof.
  refine (proj1 (proj2 (proj2 (test_scenarios 4242 1700000000000 1000
                                 1700000000000 MIHOMO_CONFIG_FILE_PATH
                                 old_config new_config (fresh ∅) _ _ _))));
    vm_compute; (reflexivity || discriminate).
Defined.
